(** * Agentic Document Processor: the orchestration core of [App.tsx]

    A shallow embedding of the state held by the [App] component
    ([useState] cells), of its event handlers ([handleFileChange],
    [togglePageSelection], [handleOcr], [toggleAgentSelection],
    [handleRunAnalysis]), of the derived [dashboardData], and of the two
    service wrappers of [services/geminiService] ([performOcrOnPages],
    [runAgent]).

    Conventions.
    - A handler is a function on [AppState].  Each [setX(v)] call of the
      source is the state transformer [setX v]; a handler body is the
      left-to-right composition of its setter calls.
    - An [async] handler is cut at its [await]: the part before it returns
      the new state together with the external call it has issued (a
      [Pending]); the part after it takes what the collaborator answered.
    - What a collaborator answers (pdf.js, the Gemini API, the clock) is an
      argument of the model, never computed by it.
    - JS numbers that hold counts are [nat]; the two places where the
      source computes with non-integers ([latency], [fullMark]) use
      binary64 floats, which is what a JS [number] is.
    - The user actions the markup offers and the continuations of the
      handlers form the relation [Step]; [Reachable] states are those a
      run of the component can be in. *)

From Stdlib Require Import PrimFloat ZArith Ascii String.
From stdpp Require Import gmap strings list pretty.

#[local] Set Warnings "-inexact-float".

(** ** JavaScript values the handlers look into *)

(** The one-character string holding a double quote. *)
Definition dquote : string := String "034"%char EmptyString.

(** A thrown value: [err instanceof Error] with its [message], or
    anything else. *)
Inductive JsThrown :=
| JsError (message : string)
| JsOther.

(** [err instanceof Error ? err.message : fallback] *)
Definition messageOr (fallback : string) (err : JsThrown) : string :=
  match err with
  | JsError m => m
  | JsOther => fallback
  end.

(** A [File] of the upload input: only [name] and [type] are read. *)
Module File.
Record t := mk { name : string; type : string }.
End File.

(** Integer-valued JS numbers as binary64 values (exact below 2^53). *)
Fixpoint float_of_pos (p : positive) : float :=
  match p with
  | xH => 1%float
  | xO q => (2 * float_of_pos q)%float
  | xI q => (2 * float_of_pos q + 1)%float
  end.

Definition float_of_Z (z : Z) : float :=
  match z with
  | Z0 => 0%float
  | Zpos p => float_of_pos p
  | Zneg p => (- float_of_pos p)%float
  end.

Definition float_of_nat (n : nat) : float := float_of_Z (Z.of_nat n).

(** ** [types.ts] *)

Inductive AgentModel :=
| gemini_2_5_flash
| gemini_2_5_pro.

Definition modelId (m : AgentModel) : string :=
  match m with
  | gemini_2_5_flash => "gemini-2.5-flash"
  | gemini_2_5_pro => "gemini-2.5-pro"
  end.

Module Agent.
Record t := mk { name : string; prompt : string; model : AgentModel }.
End Agent.

Module PageData.
Record t := mk { pageNumber : nat; imageDataUrl : string }.
End PageData.

Module AnalysisResult.
Record t := mk {
  agentName : string;
  output : string;
  latency : float;
  provider : string;
  model : string
}.
End AnalysisResult.

Inductive ProcessingState :=
| IDLE
| UPLOADING
| RENDERING_PDF
| PERFORMING_OCR
| ANALYZING
| COMPLETE
| ERROR.

#[global] Instance ProcessingState_eq_dec : EqDecision ProcessingState.
Proof. solve_decision. Defined.

#[global] Instance AgentModel_eq_dec : EqDecision AgentModel.
Proof. solve_decision. Defined.

(** ** [constants.ts] *)

Definition documentSummarizer : Agent.t :=
  Agent.mk "Document Summarizer"
    "Provide a concise summary of this document, accurately capturing its core arguments and main findings."
    gemini_2_5_flash.

Definition keywordExtractor : Agent.t :=
  Agent.mk "Keyword Extractor"
    "Extract the most important keywords and technical terms from the document. Present them as a comma-separated list."
    gemini_2_5_flash.

Definition sentimentAnalyzer : Agent.t :=
  Agent.mk "Sentiment Analyzer"
    "Analyze the overall sentiment of the document. Classify it as Positive, Negative, or Neutral, and provide a brief explanation for your reasoning."
    gemini_2_5_pro.

Definition actionItemIdentifier : Agent.t :=
  Agent.mk "Action Item Identifier"
    "List all specific action items, tasks, and to-dos mentioned in the document. If there are none, state that explicitly."
    gemini_2_5_pro.

Definition riskAssessment : Agent.t :=
  Agent.mk "Risk Assessment"
    "Conduct a thorough risk assessment based on the document's content. Identify potential risks, underlying assumptions, and uncertainties. Formulate challenging questions about the content."
    gemini_2_5_pro.

Definition AGENTS : list Agent.t :=
  [documentSummarizer; keywordExtractor; sentimentAnalyzer;
   actionItemIdentifier; riskAssessment].

(** ** The component state: one field per [useState] cell of [App] *)

Record AppState := mkState {
  file : option File.t;
  pdfPages : list PageData.t;
  selectedPageNumbers : gset nat;
  ocrText : string;
  selectedAgents : list Agent.t;
  results : list AnalysisResult.t;
  processingState : ProcessingState;
  error : option string
}.

(** The initial values passed to [useState]. *)
Definition initialState : AppState :=
  mkState None [] ∅ EmptyString [] [] IDLE None.

Section Setters.
Implicit Type st : AppState.

Definition setFile (v : option File.t) st : AppState :=
  mkState v (pdfPages st) (selectedPageNumbers st) (ocrText st)
          (selectedAgents st) (results st) (processingState st) (error st).

Definition setPdfPages (v : list PageData.t) st : AppState :=
  mkState (file st) v (selectedPageNumbers st) (ocrText st)
          (selectedAgents st) (results st) (processingState st) (error st).

Definition setSelectedPageNumbers (v : gset nat) st : AppState :=
  mkState (file st) (pdfPages st) v (ocrText st)
          (selectedAgents st) (results st) (processingState st) (error st).

Definition setOcrText (v : string) st : AppState :=
  mkState (file st) (pdfPages st) (selectedPageNumbers st) v
          (selectedAgents st) (results st) (processingState st) (error st).

Definition setSelectedAgents (v : list Agent.t) st : AppState :=
  mkState (file st) (pdfPages st) (selectedPageNumbers st) (ocrText st)
          v (results st) (processingState st) (error st).

Definition setResults (v : list AnalysisResult.t) st : AppState :=
  mkState (file st) (pdfPages st) (selectedPageNumbers st) (ocrText st)
          (selectedAgents st) v (processingState st) (error st).

Definition setProcessingState (v : ProcessingState) st : AppState :=
  mkState (file st) (pdfPages st) (selectedPageNumbers st) (ocrText st)
          (selectedAgents st) (results st) v (error st).

Definition setError (v : option string) st : AppState :=
  mkState (file st) (pdfPages st) (selectedPageNumbers st) (ocrText st)
          (selectedAgents st) (results st) (processingState st) v.
End Setters.

(** Statements of a handler body, run in source order. *)
Definition andThen (f g : AppState → AppState) : AppState → AppState :=
  λ st, g (f st).
Infix ">>>" := andThen (at level 61, left associativity).

(** What a handler is waiting for when it suspends. *)
Inductive Pending :=
| NoCall
| AwaitFileRead (f : File.t)
| AwaitOcr (pagesToProcess : list PageData.t)
| AwaitAgents (agents : list Agent.t) (documentText : string).

(** ** [services/geminiService.ts] *)

Module GeminiService.

(** How an awaited promise settles. *)
Inductive Settled (A : Type) :=
| Resolves (value : A)
| Rejects (reason : JsThrown).
Arguments Resolves {A} value.
Arguments Rejects {A} reason.

(** [performOcrOnPages(pages)]; [api] is how [ai.models.generateContent]
    settles, [response.text] when it resolves.  The call is not made
    for an empty [pages]. *)
Definition performOcrOnPages (pages : list PageData.t)
    (api : Settled string) : Settled string :=
  match pages with
  | [] => Resolves EmptyString
  | _ :: _ =>
      match api with
      | Resolves text => Resolves text
      | Rejects _ =>
          Rejects (JsError "Failed to perform OCR on the document pages.")
      end
  end.

(** What [ai.models.generateContentStream] delivers: the [text] of the
    chunks it emits, then the end of the stream or a rejection (a
    rejection of the call itself is the case of no chunk). *)
Record ApiStream := mkApiStream {
  chunkTexts : list string;
  streamError : option JsThrown
}.

(** What iterating an async generator observes. *)
Record Generated := mkGenerated {
  yielded : list string;
  thrown : option JsThrown
}.

Definition failedToExecute (agent : Agent.t) : string :=
  "Agent " +:+ dquote +:+ Agent.name agent +:+ dquote +:+
  " failed to execute.".

(** [runAgent(agent, documentText)]: yields [chunk.text] for each chunk;
    any error is replaced by a fresh [Error]. *)
Definition runAgent (agent : Agent.t) (documentText : string)
    (api : ApiStream) : Generated :=
  mkGenerated (chunkTexts api)
    (match streamError api with
     | Some _ => Some (JsError (failedToExecute agent))
     | None => None
     end).

(** [s.split(',')]: the pieces of [s] between its commas; always at
    least one piece. *)
Fixpoint splitComma (s : string) : list string :=
  match s with
  | EmptyString => [EmptyString]
  | String c rest =>
      if Ascii.eqb c ","%char then EmptyString :: splitComma rest
      else
        match splitComma rest with
        | piece :: pieces => String c piece :: pieces
        | [] => [String c EmptyString]
        end
  end.

(** One element of [contents.parts]. *)
Inductive Part :=
| TextPart (text : string)
| InlineData (data : option string) (mimeType : string).

(** [base64ToPart(base64, mimeType)]: [data] is [base64.split(',')[1]],
    [undefined] (here [None]) when there is no second piece. *)
Definition base64ToPart (base64 mimeType : string) : Part :=
  InlineData (splitComma base64 !! 1) mimeType.

Definition newline : string := String "010"%char EmptyString.

Definition ocrPrompt : string :=
  "You are an expert OCR system. Extract all text from the following document pages in the order they are provided. Combine the text into a single, coherent document." +:+
  newline +:+
  "  Pages are provided sequentially. Do not add any commentary or formatting beyond the extracted text itself.".

(** The argument of [generateContent] / [generateContentStream]. *)
Record GenerateContentRequest := mkRequest {
  requestModel : string;
  requestParts : list Part;
  requestSystemInstruction : option string
}.

(** The request [performOcrOnPages(pages)] sends; [None] when it returns
    before calling the API. *)
Definition ocrRequest (pages : list PageData.t) : option GenerateContentRequest :=
  match pages with
  | [] => None
  | _ :: _ =>
      Some (mkRequest "gemini-2.5-flash-image"
              (TextPart ocrPrompt ::
               map (λ page, base64ToPart (PageData.imageDataUrl page) "image/png")
                   pages)
              None)
  end.

Definition agentSystemInstruction : string :=
  "You are a meticulous, multilingual document analyst AI. Follow the user's instructions precisely. Be concise but complete. Prioritize correctness and faithfulness to the source document.".

Definition userPrompt (agent : Agent.t) (documentText : string) : string :=
  Agent.prompt agent +:+ newline +:+ newline +:+
  "--- DOCUMENT CONTENT ---" +:+ newline +:+ documentText.

(** The request [runAgent(agent, documentText)] sends. *)
Definition agentRequest (agent : Agent.t) (documentText : string)
    : GenerateContentRequest :=
  mkRequest (modelId (Agent.model agent))
    [TextPart (userPrompt agent documentText)]
    (Some agentSystemInstruction).

End GeminiService.
Import GeminiService.

(** ** [App.tsx]: document selection and rendering *)

(** Whether the synchronous body of the [try] block ([new FileReader()],
    the [onload] assignment, [readAsArrayBuffer]) completes or throws. *)
Inductive ReaderStart :=
| ReadScheduled
| ReaderThrows.

(** Lines 34-40: what [handleFileChange] sets for an accepted file. *)
Definition resetForDocument (selectedFile : File.t) : AppState → AppState :=
  setFile (Some selectedFile) >>>
  setPdfPages [] >>>
  setSelectedPageNumbers ∅ >>>
  setOcrText EmptyString >>>
  setResults [] >>>
  setError None >>>
  setProcessingState RENDERING_PDF.

(** [handleFileChange(event)] up to the end of the handler;
    [selectedFile] is [event.target.files?.[0]].  The [catch] covers the
    synchronous body of the [try] only: the [onload] callback runs later,
    from the event loop. *)
Definition handleFileChange (selectedFile : option File.t) (rd : ReaderStart)
    (st : AppState) : AppState * Pending :=
  let reject := (setError (Some "Please upload a valid PDF file.") st, NoCall) in
  match selectedFile with
  | Some f =>
      if bool_decide (File.type f = "application/pdf") then
        let st1 := resetForDocument f st in
        match rd with
        | ReadScheduled => (st1, AwaitFileRead f)
        | ReaderThrows =>
            ((setError (Some "Failed to load or render the PDF file.") >>>
              setProcessingState ERROR) st1, NoCall)
        end
      else reject
  | None => reject
  end.

(** What pdf.js does for one page inside the loop body: the page is
    rendered to a data URL; or [canvas.getContext('2d')] is null; or
    [getPage] / [render] rejects. *)
Inductive PageRender :=
| Rendered (imageDataUrl : string)
| NoContext
| RenderRejects.

(** The data URL of a rendered page, [canvas.toDataURL('image/png')]. *)
Definition renderedUrl (r : PageRender) : string :=
  match r with
  | Rendered url => url
  | NoContext | RenderRejects => EmptyString
  end.

Record PdfDocument := mkPdf {
  numPages : nat;
  renderPage : nat → PageRender
}.

(** How [pdfjsLib.getDocument(typedArray).promise] settles. *)
Inductive PdfLoad :=
| Loaded (pdf : PdfDocument)
| LoadRejects.

(** The loop [for (let i = 1; i <= pdf.numPages; i++)], started with
    [remaining = numPages] at [i = 1]; [None] when an [await] in the body
    rejects. *)
Fixpoint renderLoop (pdf : PdfDocument) (remaining i : nat)
    (pagesData : list PageData.t) (newSelectedPages : gset nat)
    : option (list PageData.t * gset nat) :=
  match remaining with
  | 0 => Some (pagesData, newSelectedPages)
  | S k =>
      match renderPage pdf i with
      | Rendered url =>
          renderLoop pdf k (S i) (pagesData ++ [PageData.mk i url])
                     ({[i]} ∪ newSelectedPages)
      | NoContext => renderLoop pdf k (S i) pagesData newSelectedPages
      | RenderRejects => None
      end
  end.

(** The [fileReader.onload] callback.  A rejected [await] ends the
    callback with a rejected promise nobody observes: no setter runs. *)
Definition fileReader_onload (load : PdfLoad) : AppState → AppState :=
  match load with
  | LoadRejects => id
  | Loaded pdf =>
      match renderLoop pdf (numPages pdf) 1 [] ∅ with
      | Some (pagesData, newSelectedPages) =>
          setPdfPages pagesData >>>
          setSelectedPageNumbers newSelectedPages >>>
          setProcessingState IDLE
      | None => id
      end
  end.

(** A whole document selection: the handler, then the callback when the
    read was scheduled. *)
Definition selectDocument (selectedFile : option File.t) (rd : ReaderStart)
    (load : PdfLoad) (st : AppState) : AppState :=
  match handleFileChange selectedFile rd st with
  | (st1, AwaitFileRead _) => fileReader_onload load st1
  | (st1, _) => st1
  end.

(** ** [App.tsx]: page selection and text extraction *)

(** The updater passed to [setSelectedPageNumbers]. *)
Definition toggleInSet (pageNumber : nat) (prev : gset nat) : gset nat :=
  if decide (pageNumber ∈ prev) then prev ∖ {[pageNumber]}
  else {[pageNumber]} ∪ prev.

Definition togglePageSelection (pageNumber : nat) (st : AppState) : AppState :=
  setSelectedPageNumbers (toggleInSet pageNumber (selectedPageNumbers st)) st.

(** [handleOcr] up to its [await]. *)
Definition handleOcr (st : AppState) : AppState * Pending :=
  let pagesToProcess :=
    filter (λ p, PageData.pageNumber p ∈ selectedPageNumbers st) (pdfPages st) in
  if bool_decide (length pagesToProcess = 0) then
    (setError (Some "Please select at least one page for OCR.") st, NoCall)
  else
    ((setError None >>> setProcessingState PERFORMING_OCR) st,
     AwaitOcr pagesToProcess).

(** [handleOcr] from its [await] on. *)
Definition handleOcr_resume (r : Settled string) : AppState → AppState :=
  match r with
  | Resolves text => setOcrText text >>> setProcessingState IDLE
  | Rejects err =>
      setError (Some (messageOr "An unknown OCR error occurred." err)) >>>
      setProcessingState ERROR
  end.

(** A whole extraction request, [api] being what the Gemini API answers. *)
Definition requestExtraction (api : Settled string) (st : AppState) : AppState :=
  match handleOcr st with
  | (st1, AwaitOcr pagesToProcess) =>
      handleOcr_resume (performOcrOnPages pagesToProcess api) st1
  | (st1, _) => st1
  end.

(** ** [App.tsx]: agent selection and the analysis fan-out *)

Definition sameName (agent a : Agent.t) : bool :=
  bool_decide (Agent.name a = Agent.name agent).

Definition toggleAgentSelection (agent : Agent.t) (st : AppState) : AppState :=
  let prev := selectedAgents st in
  setSelectedAgents
    (if existsb (sameName agent) prev
     then List.filter (λ a, negb (sameName agent a)) prev
     else prev ++ [agent])
    st.

(** [handleRunAnalysis] up to the launch of the agents. *)
Definition handleRunAnalysis (st : AppState) : AppState * Pending :=
  if bool_decide (ocrText st = EmptyString) then
    (setError (Some "Please perform OCR on the document first.") st, NoCall)
  else if bool_decide (length (selectedAgents st) = 0) then
    (setError (Some "Please select at least one agent to run.") st, NoCall)
  else
    ((setError None >>> setProcessingState ANALYZING >>> setResults []) st,
     AwaitAgents (selectedAgents st) (ocrText st)).

(** What the environment does to one agent invocation: the two readings
    of [Date.now()] (milliseconds) and the stream of the API. *)
Record AgentRun := mkRun {
  startTime : Z;
  settleTime : Z;
  apiStream : ApiStream
}.

(** [(Date.now() - startTime) / 1000] *)
Definition secondsSince (startTime now : Z) : float :=
  (float_of_Z (now - startTime) / 1000)%float.

(** [fullOutput += chunk] over the yielded chunks. *)
Definition accumulate (chunks : list string) : string :=
  foldl String.append EmptyString chunks.

(** What [fullOutput += chunk] appends for a yielded [chunk.text]: a
    string as it is, and the text [undefined] for a chunk that has no
    text. *)
Definition appendedText (chunkText : option string) : string :=
  match chunkText with
  | Some text => text
  | None => "undefined"
  end.

(** The stream of an API whose chunks have the given [text] values,
    [None] standing for a chunk without text. *)
Definition streamOfTexts (texts : list (option string))
    (err : option JsThrown) : ApiStream :=
  mkApiStream (map appendedText texts) err.

(** The value the [async (agent) => ...] callback of [selectedAgents.map]
    resolves with.  It resolves in both branches and never rejects. *)
Definition analysisPromise (documentText : string) (agent : Agent.t)
    (run : AgentRun) : AnalysisResult.t :=
  let g := runAgent agent documentText (apiStream run) in
  let fullOutput := accumulate (yielded g) in
  let latency := secondsSince (startTime run) (settleTime run) in
  match thrown g with
  | None =>
      AnalysisResult.mk (Agent.name agent) fullOutput latency
        "Gemini" (modelId (Agent.model agent))
  | Some err =>
      AnalysisResult.mk (Agent.name agent)
        ("Error: " +:+ messageOr "Unknown error" err) latency
        "System" (modelId (Agent.model agent))
  end.

(** [selectedAgents.map(async (agent) => ...)]: the [i]-th promise is the
    invocation of the [i]-th selected agent. *)
Definition analysisPromises (documentText : string) (agents : list Agent.t)
    (runs : nat → AgentRun) : list AnalysisResult.t :=
  imap (λ i agent, analysisPromise documentText agent (runs i)) agents.

(** [Promise.all] over promises that all resolve.  [promises] holds the
    value each one resolves with; [settleOrder] lists the indices in the
    order in which they settle.  Each value is stored at the index of its
    promise; the result is available once no slot is empty. *)
Section PromiseAll.
Context {A : Type}.

Definition fulfil (promises : list A) (slots : list (option A)) (i : nat)
    : list (option A) :=
  match promises !! i with
  | Some v => <[i := Some v]> slots
  | None => slots
  end.

Fixpoint allFilled (slots : list (option A)) : option (list A) :=
  match slots with
  | [] => Some []
  | Some v :: rest =>
      match allFilled rest with
      | Some vs => Some (v :: vs)
      | None => None
      end
  | None :: _ => None
  end.

Definition promiseAll (promises : list A) (settleOrder : list nat)
    : option (list A) :=
  allFilled
    (foldl (fulfil promises) (replicate (length promises) None) settleOrder).
End PromiseAll.

(** [handleRunAnalysis] from [await Promise.all(...)] on. *)
Definition handleRunAnalysis_resume (settledResults : list AnalysisResult.t)
    : AppState → AppState :=
  setResults settledResults >>> setProcessingState COMPLETE.

(** A whole analysis request.  While some invocation has not settled the
    handler stays suspended in the state it set before the launch. *)
Definition requestAnalysis (runs : nat → AgentRun) (settleOrder : list nat)
    (st : AppState) : AppState :=
  match handleRunAnalysis st with
  | (st1, AwaitAgents agents documentText) =>
      match promiseAll (analysisPromises documentText agents runs) settleOrder with
      | Some settledResults => handleRunAnalysis_resume settledResults st1
      | None => st1
      end
  | (st1, _) => st1
  end.

(** ** [App.tsx]: [dashboardData] *)

Module LatencyDatum.
Record t := mk { name : string; latency : float; provider : string }.
End LatencyDatum.

Module RadarDatum.
Record t := mk { subject : string; length : nat; fullMark : float }.
End RadarDatum.

Definition outputLength (r : AnalysisResult.t) : nat :=
  String.length (AnalysisResult.output r).

(** [Math.max(...results.map(res => res.output.length), 1)]: the
    arguments are non-negative integers, the last of them [1]. *)
Definition maxOutputLength (results : list AnalysisResult.t) : nat :=
  max_list (map outputLength results ++ [1]).

Definition latencyData (results : list AnalysisResult.t) : list LatencyDatum.t :=
  map (λ r, LatencyDatum.mk (AnalysisResult.agentName r)
              (AnalysisResult.latency r) (AnalysisResult.provider r))
      results.

Definition radarData (results : list AnalysisResult.t) : list RadarDatum.t :=
  map (λ r, RadarDatum.mk (AnalysisResult.agentName r) (outputLength r)
              (float_of_nat (maxOutputLength results) * 1.2)%float)
      results.

Definition dashboardData (st : AppState)
    : list LatencyDatum.t * list RadarDatum.t :=
  (latencyData (results st), radarData (results st)).

(** ** [App.tsx]: what the rendered markup lets the user do *)

Inductive Icon :=
| FileIcon
| LoaderIcon
| BrainCircuitIcon
| CheckCircleIcon
| XCircleIcon.

Record StatusInfo := mkStatus {
  statusText : string;
  statusIcon : Icon;
  statusColor : string
}.

(** [statusMap[processingState]]: the object literal has no key for
    [UPLOADING]. *)
Definition statusMap (s : ProcessingState) : option StatusInfo :=
  match s with
  | IDLE => Some (mkStatus "Awaiting Document" FileIcon "text-gray-400")
  | UPLOADING => None
  | RENDERING_PDF =>
      Some (mkStatus "Rendering PDF..." LoaderIcon "text-blue-400 animate-spin")
  | PERFORMING_OCR =>
      Some (mkStatus "Performing OCR..." LoaderIcon "text-purple-400 animate-spin")
  | ANALYZING =>
      Some (mkStatus "Running Agents..." BrainCircuitIcon
              "text-yellow-400 animate-pulse-fast")
  | COMPLETE =>
      Some (mkStatus "Analysis Complete" CheckCircleIcon "text-green-400")
  | ERROR => Some (mkStatus "An Error Occurred" XCircleIcon "text-red-400")
  end.

Definition pageNumbers (st : AppState) : list nat :=
  map PageData.pageNumber (pdfPages st).

(** [pdfPages.length > 0 && ...]: the page grid and the OCR button. *)
Definition pagesSectionShown (st : AppState) : bool :=
  bool_decide (0 < length (pdfPages st)).

(** The [disabled] attribute of the OCR button. *)
Definition ocrButtonDisabled (st : AppState) : bool :=
  bool_decide (processingState st = PERFORMING_OCR) ||
  bool_decide (size (selectedPageNumbers st) = 0).

(** [ocrText && ...]: the agent buttons and the analysis button. *)
Definition analysisSectionShown (st : AppState) : bool :=
  negb (bool_decide (ocrText st = EmptyString)).

(** The [disabled] attribute of the analysis button. *)
Definition analysisButtonDisabled (st : AppState) : bool :=
  bool_decide (processingState st = ANALYZING) ||
  bool_decide (length (selectedAgents st) = 0).

(** [results.length > 0 && ...]: the outputs and the dashboard. *)
Definition resultsSectionShown (st : AppState) : bool :=
  bool_decide (0 < length (results st)).

(** One step of the component: an event handler run on a user action the
    markup offers (a page tile exists for the pages of [pdfPages], an
    agent button for the members of [AGENTS], a button reacts when it is
    shown and not disabled), or the continuation of an [async] handler.
    Which calls are outstanding is not tracked: a continuation may run in
    any state and with any answer, so the relation admits every schedule
    of the program (and more). *)
Inductive Step : AppState → AppState → Prop :=
| step_fileChange (selectedFile : option File.t) (rd : ReaderStart) st :
    Step st (fst (handleFileChange selectedFile rd st))
| step_onload (load : PdfLoad) st :
    Step st (fileReader_onload load st)
| step_togglePage (p : nat) st :
    p ∈ pageNumbers st →
    Step st (togglePageSelection p st)
| step_ocr st :
    pagesSectionShown st = true →
    ocrButtonDisabled st = false →
    Step st (fst (handleOcr st))
| step_ocrSettled (r : Settled string) st :
    Step st (handleOcr_resume r st)
| step_toggleAgent (agent : Agent.t) st :
    analysisSectionShown st = true →
    agent ∈ AGENTS →
    Step st (toggleAgentSelection agent st)
| step_runAnalysis st :
    analysisSectionShown st = true →
    analysisButtonDisabled st = false →
    Step st (fst (handleRunAnalysis st))
| step_analysisSettled (settledResults : list AnalysisResult.t) st :
    Step st (handleRunAnalysis_resume settledResults st).

(** The states the component can be in. *)
Definition Reachable (st : AppState) : Prop := rtc Step initialState st.

(** What every reachable state satisfies. *)
Record Invariant (st : AppState) : Prop := mkInvariant {
  inv_status : processingState st ≠ UPLOADING;
  inv_pages : ∃ n, pageNumbers st `sublist_of` seq 1 n;
  inv_selection : ∀ p, p ∈ selectedPageNumbers st → p ∈ pageNumbers st;
  inv_agents_known : ∀ a, a ∈ selectedAgents st → a ∈ AGENTS;
  inv_agents_names : NoDup (map Agent.name (selectedAgents st))
}.

(** Whether a page of the document was rendered to an image. *)
Definition isRendered (r : PageRender) : bool :=
  match r with
  | Rendered _ => true
  | NoContext | RenderRejects => false
  end.

(** A string without a comma, as the header and the base64 payload of a
    data URL are. *)
Definition commaFree (s : string) : Prop :=
  ","%char ∉ list_ascii_of_string s.

(** ** A sample session

    Upload of a three-page PDF, page 2 deselected, extraction, two agents
    chosen, analysis in which the second agent settles first and fails. *)

Definition samplePdf : File.t := File.mk "report.pdf" "application/pdf".
Definition sampleNotes : File.t := File.mk "notes.txt" "text/plain".

Definition threePages : PdfDocument :=
  mkPdf 3 (λ i, Rendered ("data:image/png;base64,page" +:+ pretty i)).

(** The same document on a host that hands out no 2d context for page 2. *)
Definition secondPageWithoutContext : PdfDocument :=
  mkPdf 3 (λ i, if decide (i = 2) then NoContext else renderPage threePages i).

(** The same document when rendering page 2 fails. *)
Definition secondPageRejects : PdfDocument :=
  mkPdf 3 (λ i, if decide (i = 2) then RenderRejects else renderPage threePages i).

Definition sampleRuns (i : nat) : AgentRun :=
  match i with
  | 0 => mkRun 1000 1850 (mkApiStream ["Revenue grew "; "by 10%."] None)
  | 1 => mkRun 1001 1400 (mkApiStream ["Keywords: "] (Some JsOther))
  | _ => mkRun 0 0 (mkApiStream [] None)
  end.

Definition renderedState : AppState :=
  selectDocument (Some samplePdf) ReadScheduled (Loaded threePages) initialState.

Definition extractedState : AppState :=
  requestExtraction (Resolves "Q1 revenue grew 10%.")
    (togglePageSelection 2 renderedState).

Definition agentsChosenState : AppState :=
  toggleAgentSelection keywordExtractor
    (toggleAgentSelection documentSummarizer extractedState).

Definition completeState : AppState :=
  requestAnalysis sampleRuns [1; 0] agentsChosenState.

(** Results whose outputs have given lengths, for the dashboard. *)
Definition sampleOutput (n : nat) : string :=
  string_of_list_ascii (replicate n "x"%char).

Definition sampleResult (agent : Agent.t) (n : nat) : AnalysisResult.t :=
  AnalysisResult.mk (Agent.name agent) (sampleOutput n) 0.5%float
    "Gemini" (modelId (Agent.model agent)).

Definition sampleResults : list AnalysisResult.t :=
  [sampleResult documentSummarizer 0;
   sampleResult keywordExtractor 50;
   sampleResult sentimentAnalyzer 120].

Definition emptyResults : list AnalysisResult.t :=
  [sampleResult documentSummarizer 0; sampleResult riskAssessment 0].

(** * Properties *)

(** ** Page selection *)

Section Toggle.
Implicit Types (p q : nat) (sel : gset nat).

Lemma toggleInSet_flips p sel : p ∈ toggleInSet p sel ↔ p ∉ sel.
Proof.
  unfold toggleInSet. destruct (decide (p ∈ sel)) as [Hin|Hout].
  - rewrite elem_of_difference, elem_of_singleton. tauto.
  - rewrite elem_of_union, elem_of_singleton. tauto.
Qed.

Lemma toggleInSet_other p q sel : q ≠ p → q ∈ toggleInSet p sel ↔ q ∈ sel.
Proof.
  intros Hne. unfold toggleInSet. destruct (decide (p ∈ sel)) as [Hin|Hout].
  - rewrite elem_of_difference, elem_of_singleton. tauto.
  - rewrite elem_of_union, elem_of_singleton. tauto.
Qed.

Lemma toggleInSet_involutive p sel : toggleInSet p (toggleInSet p sel) = sel.
Proof.
  apply set_eq. intros q. destruct (decide (q = p)) as [->|Hne].
  - rewrite toggleInSet_flips, toggleInSet_flips.
    destruct (decide (p ∈ sel)); tauto.
  - by rewrite !toggleInSet_other.
Qed.
End Toggle.

(** C9: toggling a page twice in succession gives back the selection (and
    the whole state) one started from, and a single toggle flips the
    membership of that page and of no other page. *)
Theorem C9_togglePage_involutive_and_local (p : nat) (st : AppState) :
  togglePageSelection p (togglePageSelection p st) = st ∧
  (p ∈ selectedPageNumbers (togglePageSelection p st) ↔
   p ∉ selectedPageNumbers st) ∧
  (∀ q, q ≠ p →
     q ∈ selectedPageNumbers (togglePageSelection p st) ↔
     q ∈ selectedPageNumbers st).
Proof.
  split; [|split].
  - destruct st. unfold togglePageSelection, setSelectedPageNumbers. cbn.
    by rewrite toggleInSet_involutive.
  - apply toggleInSet_flips.
  - intros q Hne. by apply toggleInSet_other.
Qed.

Lemma C9_togglePage_witness :
  togglePageSelection 2 (togglePageSelection 2 renderedState) = renderedState ∧
  (2 ∈ selectedPageNumbers (togglePageSelection 2 renderedState) ↔
   2 ∉ selectedPageNumbers renderedState) ∧
  (3 ∈ selectedPageNumbers (togglePageSelection 2 renderedState) ↔
   3 ∈ selectedPageNumbers renderedState).
Proof.
  destruct (C9_togglePage_involutive_and_local 2 renderedState)
    as (Hinv & Hflip & Hother).
  split; [exact Hinv|]. split; [exact Hflip|]. apply Hother. lia.
Defined.

(** ** Document selection *)

Lemma resetForDocument_fields (f : File.t) (st : AppState) :
  resetForDocument f st =
  mkState (Some f) [] ∅ EmptyString (selectedAgents st) [] RENDERING_PDF None.
Proof. done. Qed.

Lemma handleFileChange_accepts (f : File.t) (st : AppState) :
  File.type f = "application/pdf" →
  handleFileChange (Some f) ReadScheduled st =
  (resetForDocument f st, AwaitFileRead f).
Proof.
  intros Hpdf. unfold handleFileChange.
  by rewrite bool_decide_eq_true_2.
Qed.

(** The [catch] block is reached when the synchronous part throws. *)
Lemma handleFileChange_catch (f : File.t) (st : AppState) :
  File.type f = "application/pdf" →
  let st' := fst (handleFileChange (Some f) ReaderThrows st) in
  processingState st' = ERROR ∧
  error st' = Some "Failed to load or render the PDF file.".
Proof.
  intros Hpdf. unfold handleFileChange.
  by rewrite bool_decide_eq_true_2.
Qed.

(** C3, as stated, fails on the Agent Selection: a document selected
    after a completed analysis leaves the two chosen agents selected. *)
Lemma C3_counterexample_agents_kept :
  ¬ (let st' := fst (handleFileChange (Some samplePdf) ReadScheduled completeState) in
     pdfPages st' = [] ∧
     selectedPageNumbers st' = ∅ ∧
     ocrText st' = EmptyString ∧
     selectedAgents st' = [] ∧
     results st' = [] ∧
     error st' = None ∧
     processingState st' = RENDERING_PDF).
Proof. cbv zeta. intros (_ & _ & _ & Hagents & _). vm_compute in Hagents. discriminate. Qed.

(** C3 (amended): a selection event carrying a PDF, in any state, the
    file read being started, clears Pages, Page Selection, Extracted
    Text, Results and the error, records the file, moves to
    [RENDERING_PDF], and leaves the Agent Selection as it was. *)
Theorem C3_selectDocument_resets_but_keeps_agents (f : File.t) (st : AppState) :
  File.type f = "application/pdf" →
  let st' := fst (handleFileChange (Some f) ReadScheduled st) in
  pdfPages st' = [] ∧
  selectedPageNumbers st' = ∅ ∧
  ocrText st' = EmptyString ∧
  results st' = [] ∧
  error st' = None ∧
  processingState st' = RENDERING_PDF ∧
  file st' = Some f ∧
  selectedAgents st' = selectedAgents st ∧
  snd (handleFileChange (Some f) ReadScheduled st) = AwaitFileRead f.
Proof.
  intros Hpdf. cbv zeta. rewrite (handleFileChange_accepts f st Hpdf).
  cbn [fst snd]. rewrite resetForDocument_fields. by cbn.
Qed.

Lemma C3_selectDocument_witness :
  let st' := fst (handleFileChange (Some samplePdf) ReadScheduled completeState) in
  pdfPages st' = [] ∧
  selectedPageNumbers st' = ∅ ∧
  ocrText st' = EmptyString ∧
  results st' = [] ∧
  error st' = None ∧
  processingState st' = RENDERING_PDF ∧
  file st' = Some samplePdf ∧
  selectedAgents st' = selectedAgents completeState ∧
  snd (handleFileChange (Some samplePdf) ReadScheduled completeState) =
    AwaitFileRead samplePdf.
Proof.
  apply (C3_selectDocument_resets_but_keeps_agents samplePdf completeState).
  reflexivity.
Defined.

(** C10: an event without a file, or with a file whose type is not
    [application/pdf], only sets the error message: every other cell,
    the Processing State included, is as before, and no read is started. *)
Theorem C10_rejected_file_only_sets_error
    (selectedFile : option File.t) (rd : ReaderStart) (st : AppState) :
  (∀ f, selectedFile = Some f → File.type f ≠ "application/pdf") →
  handleFileChange selectedFile rd st =
    (setError (Some "Please upload a valid PDF file.") st, NoCall) ∧
  let st' := fst (handleFileChange selectedFile rd st) in
  error st' = Some "Please upload a valid PDF file." ∧
  file st' = file st ∧
  pdfPages st' = pdfPages st ∧
  selectedPageNumbers st' = selectedPageNumbers st ∧
  ocrText st' = ocrText st ∧
  selectedAgents st' = selectedAgents st ∧
  results st' = results st ∧
  processingState st' = processingState st.
Proof.
  intros Hbad.
  assert (handleFileChange selectedFile rd st =
          (setError (Some "Please upload a valid PDF file.") st, NoCall)) as ->.
  { unfold handleFileChange. destruct selectedFile as [f|]; [|done].
    rewrite bool_decide_eq_false_2; [done|]. by apply Hbad. }
  by cbn.
Qed.

Lemma C10_rejected_file_witness :
  handleFileChange (Some sampleNotes) ReadScheduled completeState =
    (setError (Some "Please upload a valid PDF file.") completeState, NoCall) ∧
  let st' := fst (handleFileChange (Some sampleNotes) ReadScheduled completeState) in
  error st' = Some "Please upload a valid PDF file." ∧
  file st' = file completeState ∧
  pdfPages st' = pdfPages completeState ∧
  selectedPageNumbers st' = selectedPageNumbers completeState ∧
  ocrText st' = ocrText completeState ∧
  selectedAgents st' = selectedAgents completeState ∧
  results st' = results completeState ∧
  processingState st' = processingState completeState.
Proof.
  apply (C10_rejected_file_only_sets_error (Some sampleNotes) ReadScheduled
           completeState).
  intros f [= <-]. vm_compute. discriminate.
Defined.

(** ** Rendering *)

(** When every page of the range renders, the loop appends the pages of
    the range in order and adds exactly their numbers. *)
Lemma renderLoop_all_rendered (pdf : PdfDocument) :
  ∀ (remaining i : nat) (pagesData : list PageData.t) (sel : gset nat),
    (∀ j, i ≤ j < i + remaining → ∃ url, renderPage pdf j = Rendered url) →
    renderLoop pdf remaining i pagesData sel =
    Some (pagesData ++
            map (λ j, PageData.mk j (renderedUrl (renderPage pdf j)))
                (seq i remaining),
          list_to_set (seq i remaining) ∪ sel).
Proof.
  induction remaining as [|k IH]; intros i pagesData sel Hall.
  - cbn. by rewrite app_nil_r, (left_id_L ∅ (∪)).
  - cbn [renderLoop]. destruct (Hall i) as [url Hurl]; [lia|].
    rewrite Hurl, IH by (intros j Hj; apply Hall; lia).
    cbn [seq map list_to_set]. rewrite Hurl. cbn [renderedUrl].
    rewrite <- app_assoc. cbn [app].
    by rewrite (assoc_L (∪)), (comm_L (∪) _ {[i]}).
Qed.

(** A rejection inside the loop discards the pages rendered so far: they
    live in the local [pagesData] only. *)
Lemma renderLoop_rejects_at (pdf : PdfDocument) :
  ∀ (remaining i j : nat) (pagesData : list PageData.t) (sel : gset nat),
    i ≤ j < i + remaining →
    renderPage pdf j = RenderRejects →
    (∀ k, i ≤ k < j → renderPage pdf k ≠ RenderRejects) →
    renderLoop pdf remaining i pagesData sel = None.
Proof.
  induction remaining as [|k IH]; intros i j pagesData sel Hj Hrej Hbefore;
    [lia|].
  cbn [renderLoop]. destruct (decide (i = j)) as [->|Hne].
  - by rewrite Hrej.
  - destruct (renderPage pdf i) eqn:Hi.
    + apply (IH (S i) j); [lia|done|]. intros m Hm. apply Hbefore. lia.
    + apply (IH (S i) j); [lia|done|]. intros m Hm. apply Hbefore. lia.
    + exfalso. apply (Hbefore i); [lia|done].
Qed.

(** A page for which [canvas.getContext('2d')] is null is left out of
    Pages and of the Page Selection, and the callback still ends in
    [IDLE]: the hypothesis that every page renders is needed for C8. *)
Example skipped_page_leaves_gap :
  let st' := selectDocument (Some samplePdf) ReadScheduled
               (Loaded secondPageWithoutContext) initialState in
  map PageData.pageNumber (pdfPages st') = [1; 3] ∧
  selectedPageNumbers st' = {[1; 3]} ∧
  processingState st' = IDLE.
Proof.
  cbv zeta. split; [by vm_compute|]. split; [|by vm_compute].
  apply (bool_decide_unpack _). by vm_compute.
Qed.

(** A document that does not parse: the handler has moved to
    [RENDERING_PDF], and the callback changes nothing. *)
Lemma selectDocument_load_rejects (f : File.t) (st : AppState) :
  File.type f = "application/pdf" →
  selectDocument (Some f) ReadScheduled LoadRejects st = resetForDocument f st.
Proof.
  intros Hpdf. unfold selectDocument.
  by rewrite (handleFileChange_accepts f st Hpdf).
Qed.

Lemma selectDocument_page_rejects (f : File.t) (pdf : PdfDocument) (j : nat)
    (st : AppState) :
  File.type f = "application/pdf" →
  1 ≤ j ≤ numPages pdf →
  renderPage pdf j = RenderRejects →
  (∀ k, 1 ≤ k < j → renderPage pdf k ≠ RenderRejects) →
  selectDocument (Some f) ReadScheduled (Loaded pdf) st = resetForDocument f st.
Proof.
  intros Hpdf Hj Hrej Hbefore. unfold selectDocument.
  rewrite (handleFileChange_accepts f st Hpdf). unfold fileReader_onload.
  by rewrite (renderLoop_rejects_at pdf (numPages pdf) 1 j) by (done || lia).
Qed.

(** C4: evaluation of the code on a PDF-typed file that pdf.js cannot
    parse.  No page is retained and no error is recorded, and the
    Processing State is [RENDERING_PDF], not [ERROR]: the rejection is
    raised inside the [onload] callback, which the [try] does not cover. *)
Theorem C4_unparseable_document_stays_rendering :
  let st' := selectDocument (Some samplePdf) ReadScheduled LoadRejects completeState in
  pdfPages st' = [] ∧
  error st' = None ∧
  processingState st' = RENDERING_PDF ∧
  processingState st' ≠ ERROR.
Proof.
  cbv zeta. rewrite selectDocument_load_rejects by reflexivity.
  rewrite resetForDocument_fields. by cbn.
Qed.

(** C8: for a PDF of [N] pages all of which render, after the document
    selection has run to the end of the [onload] callback, Pages holds
    the pages 1..N in ascending order without gap, each with the image
    rendered for it, the Page Selection is exactly {1..N}, and the
    Processing State is [IDLE]. *)
Theorem C8_rendered_document_selects_all_pages
    (f : File.t) (pdf : PdfDocument) (st : AppState) :
  File.type f = "application/pdf" →
  (∀ i, 1 ≤ i ≤ numPages pdf → ∃ url, renderPage pdf i = Rendered url) →
  let st' := selectDocument (Some f) ReadScheduled (Loaded pdf) st in
  map PageData.pageNumber (pdfPages st') = seq 1 (numPages pdf) ∧
  (∀ p, 1 ≤ p ≤ numPages pdf →
     pdfPages st' !! (p - 1) =
     Some (PageData.mk p (renderedUrl (renderPage pdf p)))) ∧
  (∀ p, p ∈ selectedPageNumbers st' ↔ 1 ≤ p ≤ numPages pdf) ∧
  processingState st' = IDLE.
Proof.
  intros Hpdf Hall. cbv zeta. unfold selectDocument.
  rewrite (handleFileChange_accepts f st Hpdf). unfold fileReader_onload.
  rewrite renderLoop_all_rendered by (intros j Hj; apply Hall; lia).
  unfold andThen. cbn.
  split; [|split; [|split]].
  - rewrite map_map. cbn. apply map_id.
  - intros p Hp. rewrite list_lookup_fmap, lookup_seq_lt by lia.
    cbn. by replace (S (p - 1)) with p by lia.
  - intros p. rewrite elem_of_union, elem_of_list_to_set, elem_of_seq.
    rewrite elem_of_empty. lia.
  - done.
Qed.

Lemma C8_rendered_document_witness :
  let st' := selectDocument (Some samplePdf) ReadScheduled (Loaded threePages)
               initialState in
  map PageData.pageNumber (pdfPages st') = seq 1 3 ∧
  (∀ p, 1 ≤ p ≤ 3 →
     pdfPages st' !! (p - 1) =
     Some (PageData.mk p (renderedUrl (renderPage threePages p)))) ∧
  (∀ p, p ∈ selectedPageNumbers st' ↔ 1 ≤ p ≤ 3) ∧
  processingState st' = IDLE.
Proof.
  apply (C8_rendered_document_selects_all_pages samplePdf threePages initialState).
  - reflexivity.
  - intros i _. eexists. reflexivity.
Defined.

(** ** Text extraction *)

Lemma filter_selected_none (sel : gset nat) (pages : list PageData.t) :
  sel = ∅ →
  filter (λ p, PageData.pageNumber p ∈ sel) pages = [].
Proof.
  intros ->. induction pages as [|p pages IH]; [done|].
  rewrite filter_cons. destruct (decide _) as [Hin|_]; [|done].
  by apply not_elem_of_empty in Hin.
Qed.

(** The request is refused exactly when no rendered page is selected. *)
Lemma handleOcr_refuses (st : AppState) :
  filter (λ p, PageData.pageNumber p ∈ selectedPageNumbers st) (pdfPages st) = [] →
  handleOcr st =
  (setError (Some "Please select at least one page for OCR.") st, NoCall).
Proof. intros Hnone. unfold handleOcr. by rewrite Hnone. Qed.

Lemma handleOcr_starts (st : AppState) (pages : list PageData.t) :
  snd (handleOcr st) = AwaitOcr pages →
  pages = filter (λ p, PageData.pageNumber p ∈ selectedPageNumbers st)
                 (pdfPages st) ∧
  pages ≠ [] ∧
  fst (handleOcr st) = setProcessingState PERFORMING_OCR (setError None st).
Proof.
  unfold handleOcr. case_bool_decide as Hlen; cbn; [done|].
  intros [= <-]. split; [done|]. split; [|done].
  intros Hnil. by rewrite Hnil in Hlen.
Qed.

(** Whatever the client throws, the [catch] of [handleOcr] records a
    message and moves to [ERROR]. *)
Lemma handleOcr_resume_rejected (err : JsThrown) (st : AppState) :
  handleOcr_resume (Rejects err) st =
  setProcessingState ERROR
    (setError (Some (messageOr "An unknown OCR error occurred." err)) st).
Proof. done. Qed.

(** C6: with an empty Page Selection [handleOcr] issues no call to the
    extraction client, surfaces the message asking to select at least one
    page, and changes no other cell: the Processing State is the one it
    was called in ([IDLE] stays [IDLE]). *)
Theorem C6_empty_selection_is_refused (st : AppState) :
  selectedPageNumbers st = ∅ →
  snd (handleOcr st) = NoCall ∧
  (∀ api, requestExtraction api st = fst (handleOcr st)) ∧
  let st' := fst (handleOcr st) in
  error st' = Some ("Please " +:+ "select at least one page" +:+ " for OCR.") ∧
  processingState st' = processingState st ∧
  file st' = file st ∧
  pdfPages st' = pdfPages st ∧
  selectedPageNumbers st' = selectedPageNumbers st ∧
  ocrText st' = ocrText st ∧
  selectedAgents st' = selectedAgents st ∧
  results st' = results st.
Proof.
  intros Hempty.
  assert (handleOcr st =
          (setError (Some "Please select at least one page for OCR.") st, NoCall))
    as Hrefused.
  { apply handleOcr_refuses. by apply filter_selected_none. }
  unfold requestExtraction. rewrite Hrefused. by cbn.
Qed.

Lemma C6_empty_selection_witness :
  let st := togglePageSelection 3 (togglePageSelection 2
              (togglePageSelection 1 renderedState)) in
  processingState st = IDLE ∧
  snd (handleOcr st) = NoCall ∧
  (∀ api, requestExtraction api st = fst (handleOcr st)) ∧
  let st' := fst (handleOcr st) in
  error st' = Some ("Please " +:+ "select at least one page" +:+ " for OCR.") ∧
  processingState st' = processingState st ∧
  file st' = file st ∧
  pdfPages st' = pdfPages st ∧
  selectedPageNumbers st' = selectedPageNumbers st ∧
  ocrText st' = ocrText st ∧
  selectedAgents st' = selectedAgents st ∧
  results st' = results st.
Proof.
  cbv zeta. split; [reflexivity|].
  apply (C6_empty_selection_is_refused
           (togglePageSelection 3 (togglePageSelection 2
              (togglePageSelection 1 renderedState)))).
  by vm_compute.
Defined.

(** C2, as stated, fails: after a failed extraction the Processing State
    is [ERROR], not [IDLE]. *)
Lemma C2_counterexample_state_is_error :
  ¬ (let st' := requestExtraction (Rejects (JsError "429 quota exceeded"))
                  renderedState in
     error st' = Some "Failed to perform OCR on the document pages." ∧
     processingState st' = IDLE).
Proof. cbv zeta. intros [_ Hidle]. vm_compute in Hidle. discriminate. Qed.

(** C2 (amended): when the extraction client fails, the message of the
    failure is surfaced and the Processing State becomes [ERROR]; the
    file, Pages, Page Selection, Extracted Text, Agent Selection and
    Results are as they were before the request, and a new request from
    that state calls the client with the same pages, so the user may
    retry without uploading again. *)
Theorem C2_extraction_failure_surfaces_message_in_error_state
    (st : AppState) (pages : list PageData.t) (reason : JsThrown) :
  snd (handleOcr st) = AwaitOcr pages →
  let st' := requestExtraction (Rejects reason) st in
  error st' = Some "Failed to perform OCR on the document pages." ∧
  processingState st' = ERROR ∧
  file st' = file st ∧
  pdfPages st' = pdfPages st ∧
  selectedPageNumbers st' = selectedPageNumbers st ∧
  ocrText st' = ocrText st ∧
  selectedAgents st' = selectedAgents st ∧
  results st' = results st ∧
  snd (handleOcr st') = AwaitOcr pages.
Proof.
  intros Hstart. destruct (handleOcr_starts st pages Hstart) as (Hpages & Hne & Hfst).
  cbv zeta. unfold requestExtraction.
  destruct (handleOcr st) as [st1 pending] eqn:Hrun. cbn in Hstart, Hfst.
  subst pending st1.
  assert (performOcrOnPages pages (Rejects reason) =
          Rejects (JsError "Failed to perform OCR on the document pages."))
    as ->.
  { by destruct pages. }
  rewrite handleOcr_resume_rejected. cbn.
  repeat (split; [done|]).
  unfold handleOcr. cbn. rewrite <- Hpages.
  by destruct pages.
Qed.

Lemma C2_extraction_failure_witness :
  let st' := requestExtraction (Rejects (JsError "429 quota exceeded"))
               renderedState in
  error st' = Some "Failed to perform OCR on the document pages." ∧
  processingState st' = ERROR ∧
  file st' = file renderedState ∧
  pdfPages st' = pdfPages renderedState ∧
  selectedPageNumbers st' = selectedPageNumbers renderedState ∧
  ocrText st' = ocrText renderedState ∧
  selectedAgents st' = selectedAgents renderedState ∧
  results st' = results renderedState ∧
  snd (handleOcr st') = AwaitOcr (pdfPages renderedState).
Proof.
  apply (C2_extraction_failure_surfaces_message_in_error_state renderedState
           (pdfPages renderedState) (JsError "429 quota exceeded")).
  by vm_compute.
Defined.

(** ** [Promise.all] *)

Section PromiseAllFacts.
Context {A : Type}.
Implicit Types (promises : list A) (slots : list (option A)).
Implicit Types (settleOrder : list nat) (i j : nat).

Lemma length_fulfil promises slots i :
  length (fulfil promises slots i) = length slots.
Proof.
  unfold fulfil. destruct (promises !! i); [|done]. apply length_insert.
Qed.

Lemma lookup_fulfil promises slots i j :
  length slots = length promises →
  j < length promises →
  fulfil promises slots i !! j =
  if decide (i = j) then Some (promises !! j) else slots !! j.
Proof.
  intros Hlen Hj. unfold fulfil. destruct (decide (i = j)) as [->|Hne].
  - destruct (lookup_lt_is_Some_2 promises j Hj) as [v Hv]. rewrite Hv.
    apply list_lookup_insert_eq. lia.
  - destruct (promises !! i); [|done]. by apply list_lookup_insert_ne.
Qed.

Lemma length_settled promises settleOrder :
  ∀ slots,
    length (foldl (fulfil promises) slots settleOrder) = length slots.
Proof.
  induction settleOrder as [|i rest IH]; intros slots; [done|].
  cbn [foldl]. by rewrite IH, length_fulfil.
Qed.

(** After the promises of [settleOrder] have settled, a slot holds the
    value of its promise if that promise is among them, and is as
    before otherwise: the order plays no part. *)
Lemma lookup_settled promises settleOrder :
  ∀ slots j,
    length slots = length promises →
    j < length promises →
    foldl (fulfil promises) slots settleOrder !! j =
    if decide (j ∈ settleOrder) then Some (promises !! j) else slots !! j.
Proof.
  induction settleOrder as [|i rest IH]; intros slots j Hlen Hj.
  - cbn [foldl]. destruct (decide (j ∈ [])) as [Hin|_]; [|done].
    by apply elem_of_nil in Hin.
  - cbn [foldl]. rewrite IH by (by rewrite ?length_fulfil).
    rewrite lookup_fulfil by done.
    destruct (decide (j ∈ rest)) as [Hrest|Hrest].
    + rewrite decide_True; [done|]. rewrite elem_of_cons. by right.
    + destruct (decide (i = j)) as [->|Hne].
      * rewrite decide_True; [done|]. rewrite elem_of_cons. by left.
      * rewrite decide_False; [done|].
        rewrite elem_of_cons. intros [->|Hin]; done.
Qed.

Lemma allFilled_fmap_Some (values : list A) :
  allFilled (Some <$> values) = Some values.
Proof.
  induction values as [|v values IH]; [done|]. cbn. cbn in IH. by rewrite IH.
Qed.

Lemma allFilled_empty_slot slots :
  ∀ j, slots !! j = Some None → allFilled slots = None.
Proof.
  induction slots as [|[v|] slots IH]; intros j Hj; [done| |done].
  destruct j as [|j]; [done|]. cbn in Hj. cbn. by rewrite (IH j Hj).
Qed.

(** Once every promise has settled, [Promise.all] delivers the values
    in the order of the promises, whatever the order of settlement. *)
Lemma promiseAll_all_settled promises settleOrder :
  (∀ i, i < length promises → i ∈ settleOrder) →
  promiseAll promises settleOrder = Some promises.
Proof.
  intros Hall. unfold promiseAll.
  rewrite <- (allFilled_fmap_Some promises). f_equal.
  apply list_eq. intros j.
  destruct (decide (j < length promises)) as [Hj|Hj].
  - rewrite lookup_settled by (by rewrite ?length_replicate).
    rewrite decide_True by (by apply Hall).
    rewrite list_lookup_fmap.
    by destruct (lookup_lt_is_Some_2 promises j Hj) as [v ->].
  - rewrite !lookup_ge_None_2; [done| |].
    + rewrite length_fmap. lia.
    + rewrite length_settled, length_replicate. lia.
Qed.

(** While some promise has not settled, [Promise.all] delivers nothing. *)
Lemma promiseAll_pending promises settleOrder j :
  j < length promises →
  j ∉ settleOrder →
  promiseAll promises settleOrder = None.
Proof.
  intros Hj Hout. unfold promiseAll. apply (allFilled_empty_slot _ j).
  rewrite lookup_settled by (by rewrite ?length_replicate).
  rewrite decide_False by done. by apply lookup_replicate_2.
Qed.
End PromiseAllFacts.

(** ** The analysis fan-out *)

Lemma append_empty_r (s : string) : s +:+ EmptyString = s.
Proof.
  induction s as [|c s IH]; [done|].
  change (String c (s +:+ EmptyString) = String c s). by rewrite IH.
Qed.

Lemma append_assoc (s t u : string) : (s +:+ t) +:+ u = s +:+ (t +:+ u).
Proof.
  induction s as [|c s IH]; [done|].
  change (String c ((s +:+ t) +:+ u) = String c (s +:+ (t +:+ u))).
  by rewrite IH.
Qed.

(** [fullOutput] is the concatenation of the chunks in emission order. *)
Lemma accumulate_from (chunks : list string) :
  ∀ acc, foldl String.append acc chunks = acc +:+ accumulate chunks.
Proof.
  unfold accumulate. induction chunks as [|c chunks IH]; intros acc.
  - cbn. by rewrite append_empty_r.
  - cbn [foldl]. rewrite IH, (IH (EmptyString +:+ c)).
    change (EmptyString +:+ c) with c. by rewrite append_assoc.
Qed.

Lemma accumulate_cons (c : string) (chunks : list string) :
  accumulate (c :: chunks) = c +:+ accumulate chunks.
Proof. unfold accumulate at 1. cbn [foldl]. apply accumulate_from. Qed.

(** The accumulated output, stated with the library's own concatenation
    of a list of strings (no separator). *)
Lemma accumulate_concat (chunks : list string) :
  accumulate chunks = String.concat EmptyString chunks.
Proof.
  induction chunks as [|c chunks IH]; [done|].
  rewrite accumulate_cons, IH. cbn [String.concat].
  destruct chunks as [|c' chunks]; [apply append_empty_r|done].
Qed.

Section Invocation.
Variables (documentText : string) (agent : Agent.t) (run : AgentRun).

Lemma analysisPromise_agentName :
  AnalysisResult.agentName (analysisPromise documentText agent run) =
  Agent.name agent.
Proof.
  unfold analysisPromise, runAgent. cbn.
  by destruct (streamError (apiStream run)).
Qed.

(** The stream ended normally: the [try] branch. *)
Lemma analysisPromise_success :
  streamError (apiStream run) = None →
  analysisPromise documentText agent run =
  AnalysisResult.mk (Agent.name agent)
    (accumulate (chunkTexts (apiStream run)))
    (secondsSince (startTime run) (settleTime run))
    "Gemini" (modelId (Agent.model agent)).
Proof. intros Hok. unfold analysisPromise, runAgent. cbn. by rewrite Hok. Qed.

(** The stream failed: the [catch] branch; the chunks received before
    the failure are dropped. *)
Lemma analysisPromise_failure :
  streamError (apiStream run) ≠ None →
  analysisPromise documentText agent run =
  AnalysisResult.mk (Agent.name agent)
    ("Error: " +:+ failedToExecute agent)
    (secondsSince (startTime run) (settleTime run))
    "System" (modelId (Agent.model agent)).
Proof.
  intros Hfail. unfold analysisPromise, runAgent. cbn.
  by destruct (streamError (apiStream run)).
Qed.
End Invocation.

Lemma lookup_analysisPromises (documentText : string) (agents : list Agent.t)
    (runs : nat → AgentRun) (i : nat) :
  analysisPromises documentText agents runs !! i =
  (λ a, analysisPromise documentText a (runs i)) <$> agents !! i.
Proof. unfold analysisPromises. apply list_lookup_imap. Qed.

Lemma agentNames_analysisPromises (documentText : string)
    (agents : list Agent.t) (runs : nat → AgentRun) :
  map AnalysisResult.agentName (analysisPromises documentText agents runs) =
  map Agent.name agents.
Proof.
  apply list_eq. intros i.
  change (map AnalysisResult.agentName) with (fmap (M:=list) AnalysisResult.agentName).
  change (map Agent.name) with (fmap (M:=list) Agent.name).
  rewrite !list_lookup_fmap, lookup_analysisPromises.
  destruct (agents !! i) as [a|]; [|done]. cbn.
  by rewrite analysisPromise_agentName.
Qed.

(** An accepted request whose invocations have all settled ends in the
    state set by the two statements after [await Promise.all]. *)
Lemma requestAnalysis_settled (runs : nat → AgentRun) (settleOrder : list nat)
    (st : AppState) :
  ocrText st ≠ EmptyString →
  selectedAgents st ≠ [] →
  (∀ i, i < length (selectedAgents st) → i ∈ settleOrder) →
  requestAnalysis runs settleOrder st =
  mkState (file st) (pdfPages st) (selectedPageNumbers st) (ocrText st)
    (selectedAgents st)
    (analysisPromises (ocrText st) (selectedAgents st) runs)
    COMPLETE None.
Proof.
  intros Htext Hagents Hall. unfold requestAnalysis, handleRunAnalysis.
  rewrite bool_decide_eq_false_2 by done.
  rewrite bool_decide_eq_false_2 by (by destruct (selectedAgents st)).
  rewrite promiseAll_all_settled; [done|].
  unfold analysisPromises. by rewrite length_imap.
Qed.

(** Until then the handler is suspended in [ANALYZING] with no result. *)
Lemma requestAnalysis_suspended (runs : nat → AgentRun) (settleOrder : list nat)
    (st : AppState) (j : nat) :
  ocrText st ≠ EmptyString →
  j < length (selectedAgents st) →
  j ∉ settleOrder →
  let st' := requestAnalysis runs settleOrder st in
  processingState st' = ANALYZING ∧ results st' = [].
Proof.
  intros Htext Hj Hout. cbv zeta. unfold requestAnalysis, handleRunAnalysis.
  rewrite bool_decide_eq_false_2 by done.
  rewrite bool_decide_eq_false_2 by (destruct (selectedAgents st); cbn in *; [lia|done]).
  rewrite (promiseAll_pending _ _ j); [done| |done].
  unfold analysisPromises. by rewrite length_imap.
Qed.

(** C1: an analysis run started with non-empty Extracted Text and a
    non-empty Agent Selection, once every launched invocation has
    settled, ends with exactly one result per selected agent, in the order
    of the selection, and in [COMPLETE]; this for every order of
    settlement and whatever each invocation did. *)
Theorem C1_results_follow_selection_order
    (runs : nat → AgentRun) (settleOrder : list nat) (st : AppState) :
  ocrText st ≠ EmptyString →
  selectedAgents st ≠ [] →
  (∀ i, i < length (selectedAgents st) → i ∈ settleOrder) →
  let st' := requestAnalysis runs settleOrder st in
  length (results st') = length (selectedAgents st) ∧
  map AnalysisResult.agentName (results st') =
    map Agent.name (selectedAgents st) ∧
  (∀ i a, selectedAgents st !! i = Some a →
     results st' !! i = Some (analysisPromise (ocrText st) a (runs i))) ∧
  processingState st' = COMPLETE.
Proof.
  intros Htext Hagents Hall. cbv zeta.
  rewrite requestAnalysis_settled by done. cbn.
  split; [|split; [|split]].
  - unfold analysisPromises. apply length_imap.
  - apply agentNames_analysisPromises.
  - intros i a Ha. by rewrite lookup_analysisPromises, Ha.
  - done.
Qed.

Lemma sample_all_settled :
  ∀ i, i < length (selectedAgents agentsChosenState) → i ∈ [1; 0].
Proof.
  intros i Hi. change (i < 2) in Hi.
  destruct i as [|[|i]]; [| |lia]; rewrite !elem_of_cons; auto.
Defined.

Lemma C1_results_order_witness :
  let st' := requestAnalysis sampleRuns [1; 0] agentsChosenState in
  length (results st') = length (selectedAgents agentsChosenState) ∧
  map AnalysisResult.agentName (results st') =
    map Agent.name (selectedAgents agentsChosenState) ∧
  (∀ i a, selectedAgents agentsChosenState !! i = Some a →
     results st' !! i =
     Some (analysisPromise (ocrText agentsChosenState) a (sampleRuns i))) ∧
  processingState st' = COMPLETE.
Proof.
  apply (C1_results_follow_selection_order sampleRuns [1; 0] agentsChosenState).
  - by vm_compute.
  - by vm_compute.
  - exact sample_all_settled.
Defined.

(** C5: when the invocation of the [i]-th selected agent fails, the
    batch still reaches [COMPLETE] with one result per agent; the result
    at [i] is that agent's, its output is the failure message behind the
    [Error: ] tag and its provider is [System], not [Gemini]; every other
    agent whose stream ended normally has as output the concatenation, in
    emission order, of the texts its stream delivered ([String.concat]
    with the empty separator) and [Gemini] as provider; and no other
    result depends on what happened to the [i]-th invocation. *)
Theorem C5_agent_failure_is_isolated
    (runs : nat → AgentRun) (settleOrder : list nat) (st : AppState)
    (i : nat) (a : Agent.t) :
  ocrText st ≠ EmptyString →
  (∀ k, k < length (selectedAgents st) → k ∈ settleOrder) →
  selectedAgents st !! i = Some a →
  streamError (apiStream (runs i)) ≠ None →
  let st' := requestAnalysis runs settleOrder st in
  processingState st' = COMPLETE ∧
  length (results st') = length (selectedAgents st) ∧
  (∃ r, results st' !! i = Some r ∧
        AnalysisResult.agentName r = Agent.name a ∧
        AnalysisResult.output r = "Error: " +:+ failedToExecute a ∧
        AnalysisResult.output r =
          "Error: Agent " +:+ dquote +:+ Agent.name a +:+ dquote +:+
          " failed to execute." ∧
        AnalysisResult.provider r = "System" ∧
        AnalysisResult.provider r ≠ "Gemini") ∧
  (∀ j b, j ≠ i → selectedAgents st !! j = Some b →
     streamError (apiStream (runs j)) = None →
     ∃ r, results st' !! j = Some r ∧
          AnalysisResult.agentName r = Agent.name b ∧
          AnalysisResult.output r =
            String.concat EmptyString (chunkTexts (apiStream (runs j))) ∧
          AnalysisResult.provider r = "Gemini") ∧
  (∀ runs' j, (∀ k, k ≠ i → runs' k = runs k) → j ≠ i →
     results (requestAnalysis runs' settleOrder st) !! j = results st' !! j).
Proof.
  intros Htext Hall Hi Hfail. cbv zeta.
  assert (selectedAgents st ≠ []) as Hagents.
  { intros Hnil. by rewrite Hnil in Hi. }
  rewrite requestAnalysis_settled by done. cbn.
  split; [done|]. split; [unfold analysisPromises; apply length_imap|].
  split; [|split].
  - eexists. rewrite lookup_analysisPromises, Hi. split; [done|].
    rewrite analysisPromise_failure by done. by cbn.
  - intros j b Hne Hj Hok. eexists.
    rewrite lookup_analysisPromises, Hj. split; [done|].
    rewrite analysisPromise_success by done. cbn.
    by rewrite accumulate_concat.
  - intros runs' j Hsame Hne.
    rewrite requestAnalysis_settled by done. cbn.
    by rewrite !lookup_analysisPromises, Hsame.
Qed.

Lemma C5_agent_failure_witness :
  let st' := requestAnalysis sampleRuns [1; 0] agentsChosenState in
  (processingState st' = COMPLETE ∧
   length (results st') = length (selectedAgents agentsChosenState) ∧
   (∃ r, results st' !! 1 = Some r ∧
         AnalysisResult.agentName r = Agent.name keywordExtractor ∧
         AnalysisResult.output r = "Error: " +:+ failedToExecute keywordExtractor ∧
         AnalysisResult.output r =
           "Error: Agent " +:+ dquote +:+ Agent.name keywordExtractor +:+
           dquote +:+ " failed to execute." ∧
         AnalysisResult.provider r = "System" ∧
         AnalysisResult.provider r ≠ "Gemini") ∧
   (∀ j b, j ≠ 1 → selectedAgents agentsChosenState !! j = Some b →
      streamError (apiStream (sampleRuns j)) = None →
      ∃ r, results st' !! j = Some r ∧
           AnalysisResult.agentName r = Agent.name b ∧
           AnalysisResult.output r =
             String.concat EmptyString (chunkTexts (apiStream (sampleRuns j))) ∧
           AnalysisResult.provider r = "Gemini") ∧
   (∀ runs' j, (∀ k, k ≠ 1 → runs' k = sampleRuns k) → j ≠ 1 →
      results (requestAnalysis runs' [1; 0] agentsChosenState) !! j =
      results st' !! j)) ∧
  map AnalysisResult.agentName (results st') =
    ["Document Summarizer"; "Keyword Extractor"] ∧
  map AnalysisResult.output (results st') =
    ["Revenue grew by 10%.";
     "Error: Agent " +:+ dquote +:+ "Keyword Extractor" +:+ dquote +:+
     " failed to execute."] ∧
  map AnalysisResult.provider (results st') = ["Gemini"; "System"].
Proof.
  cbv zeta. split.
  - apply (C5_agent_failure_is_isolated sampleRuns [1; 0] agentsChosenState
             1 keywordExtractor).
    + by vm_compute.
    + exact sample_all_settled.
    + reflexivity.
    + by vm_compute.
  - split; [|split]; by vm_compute.
Defined.

(** ** The dashboard *)

Lemma maxOutputLength_floor (results : list AnalysisResult.t) :
  maxOutputLength results = max_list (map outputLength results) `max` 1.
Proof.
  unfold maxOutputLength.
  induction (map outputLength results) as [|n ns IH]; [done|].
  cbn. cbn in IH. rewrite IH. lia.
Qed.

Lemma fullMark_radarData (results : list AnalysisResult.t) (d : RadarDatum.t) :
  d ∈ radarData results →
  RadarDatum.fullMark d = (float_of_nat (maxOutputLength results) * 1.2)%float.
Proof.
  unfold radarData. generalize (maxOutputLength results) as m. intros m.
  change map with (@fmap list _). intros Hd.
  apply list_elem_of_fmap in Hd as (r & -> & _). done.
Qed.

Lemma max_list_all_zero (ns : list nat) :
  (∀ n, n ∈ ns → n = 0) → max_list ns = 0.
Proof.
  induction ns as [|n ns IH]; intros Hzero; [done|]. cbn.
  rewrite (Hzero n), IH; [done| |].
  - intros m Hm. apply Hzero. rewrite elem_of_cons. by right.
  - rewrite elem_of_cons. by left.
Qed.

(** C7: every entry of the output-length series carries the same
    [fullMark], the binary64 product of [max(lengths, 1)] and [1.2]; it is
    [144] for outputs of lengths 0, 50 and 120, and [1.2] when every output
    is empty.  The series has one entry per result, with its agent name
    and its character count. *)
Theorem C7_fullMark_is_scaled_maximum (results : list AnalysisResult.t) :
  (∀ d, d ∈ radarData results →
     RadarDatum.fullMark d =
     (float_of_nat (max_list (map outputLength results) `max` 1) * 1.2)%float) ∧
  map RadarDatum.subject (radarData results) =
    map AnalysisResult.agentName results ∧
  map RadarDatum.length (radarData results) = map outputLength results ∧
  (map outputLength results = [0; 50; 120] →
     ∀ d, d ∈ radarData results → RadarDatum.fullMark d = 144%float) ∧
  ((∀ r, r ∈ results → AnalysisResult.output r = EmptyString) →
     ∀ d, d ∈ radarData results → RadarDatum.fullMark d = 1.2%float).
Proof.
  split; [|split; [|split; [|split]]].
  - intros d Hd. by rewrite <- maxOutputLength_floor, (fullMark_radarData results).
  - unfold radarData. rewrite map_map. by cbn.
  - unfold radarData. rewrite map_map. by cbn.
  - intros Hlens d Hd. rewrite (fullMark_radarData results d Hd).
    unfold maxOutputLength. rewrite Hlens. by vm_compute.
  - intros Hempty d Hd. rewrite (fullMark_radarData results d Hd).
    rewrite maxOutputLength_floor, max_list_all_zero; [by vm_compute|].
    intros n Hn. change map with (@fmap list _) in Hn.
    apply list_elem_of_fmap in Hn as (r & -> & Hr).
    unfold outputLength. by rewrite (Hempty r Hr).
Qed.

Lemma C7_fullMark_witness :
  (∀ d, d ∈ radarData sampleResults → RadarDatum.fullMark d = 144%float) ∧
  (∀ d, d ∈ radarData emptyResults → RadarDatum.fullMark d = 1.2%float).
Proof.
  split.
  - apply (C7_fullMark_is_scaled_maximum sampleResults). reflexivity.
  - apply (C7_fullMark_is_scaled_maximum emptyResults).
    intros r Hr. unfold emptyResults in Hr.
    rewrite !elem_of_cons, elem_of_nil in Hr.
    destruct Hr as [->|[->|[]]]; reflexivity.
Defined.


(** * Further properties of the handlers *)

(** ** Text extraction: what is sent, and what a success stores *)

Lemma handleOcr_pending (st : AppState) :
  let pagesToProcess :=
    filter (λ p, PageData.pageNumber p ∈ selectedPageNumbers st) (pdfPages st) in
  snd (handleOcr st) =
  match pagesToProcess with
  | [] => NoCall
  | _ :: _ => AwaitOcr pagesToProcess
  end.
Proof.
  cbv zeta. unfold handleOcr.
  by destruct (filter _ (pdfPages st)).
Qed.

(** X1: [handleOcr] calls the extraction client exactly when some rendered
    page has its number in the selection; the pages it passes are then the
    rendered pages whose number is selected, in the order of [pdfPages],
    and the request built from them has the prompt followed by one image
    part per page.  Otherwise it only sets the validation message. *)
Theorem handleOcr_sends_the_selected_pages (st : AppState) :
  ((∃ pages, snd (handleOcr st) = AwaitOcr pages) ↔
   (∃ p, p ∈ pdfPages st ∧ PageData.pageNumber p ∈ selectedPageNumbers st)) ∧
  (∀ pages, snd (handleOcr st) = AwaitOcr pages →
     pages `sublist_of` pdfPages st ∧
     (∀ p, p ∈ pages ↔
           p ∈ pdfPages st ∧ PageData.pageNumber p ∈ selectedPageNumbers st) ∧
     ∃ request, ocrRequest pages = Some request ∧
                length (requestParts request) = S (length pages)) ∧
  ((∀ p, p ∈ pdfPages st → PageData.pageNumber p ∉ selectedPageNumbers st) →
     handleOcr st =
     (setError (Some "Please select at least one page for OCR.") st, NoCall)).
Proof.
  pose proof (handleOcr_pending st) as Hpending. cbv zeta in Hpending.
  set (sent := filter (λ p, PageData.pageNumber p ∈ selectedPageNumbers st)
                      (pdfPages st)) in *.
  assert (∀ p, p ∈ sent ↔
               p ∈ pdfPages st ∧ PageData.pageNumber p ∈ selectedPageNumbers st)
    as Hsent.
  { intros p. unfold sent. rewrite list_elem_of_filter. tauto. }
  split; [|split].
  - split.
    + intros [pages Hpages]. rewrite Hpending in Hpages.
      destruct sent as [|p rest] eqn:Hs; [done|].
      exists p. apply Hsent. rewrite elem_of_cons. by left.
    + intros (p & Hp). apply Hsent in Hp. rewrite Hpending.
      destruct sent as [|q rest]; [by apply elem_of_nil in Hp|]. by eexists.
  - intros pages Hpages. rewrite Hpending in Hpages.
    destruct sent as [|q rest] eqn:Hs; [done|]. injection Hpages as <-.
    split; [|split].
    + rewrite <- Hs. apply sublist_filter.
    + exact Hsent.
    + eexists. split; [done|]. cbn. by rewrite length_map.
  - intros Hnone. apply handleOcr_refuses. fold sent.
    destruct sent as [|q rest]; [done|]. exfalso.
    destruct (proj1 (Hsent q)) as [Hq Hsel]; [rewrite elem_of_cons; by left|].
    by apply (Hnone q).
Qed.

(** X2: a successful extraction overwrites the Extracted Text with the
    text the client returned, leaves the error cleared and the state
    [IDLE], and changes nothing else. *)
Theorem requestExtraction_success_stores_text
    (st : AppState) (pages : list PageData.t) (text : string) :
  snd (handleOcr st) = AwaitOcr pages →
  requestExtraction (Resolves text) st =
  mkState (file st) (pdfPages st) (selectedPageNumbers st) text
          (selectedAgents st) (results st) IDLE None.
Proof.
  intros Hstart.
  destruct (handleOcr_starts st pages Hstart) as (_ & Hne & Hfst).
  unfold requestExtraction.
  destruct (handleOcr st) as [st1 pending]. cbn in Hstart, Hfst. subst.
  by destruct pages.
Qed.

Lemma requestExtraction_success_witness :
  requestExtraction (Resolves "second reading") extractedState =
  mkState (file extractedState) (pdfPages extractedState)
          (selectedPageNumbers extractedState) "second reading"
          (selectedAgents extractedState) (results extractedState) IDLE None.
Proof.
  apply (requestExtraction_success_stores_text extractedState
           (filter (λ p, PageData.pageNumber p ∈ selectedPageNumbers extractedState)
                   (pdfPages extractedState))).
  by vm_compute.
Defined.

(** ** Analysis: validation, launch and suspension *)

(** X3: without Extracted Text, [handleRunAnalysis] launches no agent and
    only sets the message asking for OCR first, also when no agent is
    selected either. *)
Theorem handleRunAnalysis_without_text (st : AppState) :
  ocrText st = EmptyString →
  handleRunAnalysis st =
  (mkState (file st) (pdfPages st) (selectedPageNumbers st) (ocrText st)
           (selectedAgents st) (results st) (processingState st)
           (Some "Please perform OCR on the document first."),
   NoCall) ∧
  ∀ runs settleOrder,
    requestAnalysis runs settleOrder st = fst (handleRunAnalysis st).
Proof.
  intros Hempty. unfold requestAnalysis, handleRunAnalysis.
  by rewrite bool_decide_eq_true_2.
Qed.

Lemma handleRunAnalysis_without_text_witness :
  handleRunAnalysis renderedState =
  (mkState (file renderedState) (pdfPages renderedState)
           (selectedPageNumbers renderedState) (ocrText renderedState)
           (selectedAgents renderedState) (results renderedState)
           (processingState renderedState)
           (Some "Please perform OCR on the document first."),
   NoCall) ∧
  ∀ runs settleOrder,
    requestAnalysis runs settleOrder renderedState =
    fst (handleRunAnalysis renderedState).
Proof.
  apply (handleRunAnalysis_without_text renderedState). reflexivity.
Defined.

(** X4: with Extracted Text but an empty Agent Selection,
    [handleRunAnalysis] launches no agent and only sets the message asking
    for an agent; the results of an earlier run stay. *)
Theorem handleRunAnalysis_without_agents (st : AppState) :
  ocrText st ≠ EmptyString →
  selectedAgents st = [] →
  handleRunAnalysis st =
  (mkState (file st) (pdfPages st) (selectedPageNumbers st) (ocrText st)
           (selectedAgents st) (results st) (processingState st)
           (Some "Please select at least one agent to run."),
   NoCall) ∧
  ∀ runs settleOrder,
    requestAnalysis runs settleOrder st = fst (handleRunAnalysis st).
Proof.
  intros Htext Hnone. unfold requestAnalysis, handleRunAnalysis.
  rewrite bool_decide_eq_false_2 by done.
  rewrite bool_decide_eq_true_2; [done|]. by rewrite Hnone.
Qed.

Lemma handleRunAnalysis_without_agents_witness :
  handleRunAnalysis extractedState =
  (mkState (file extractedState) (pdfPages extractedState)
           (selectedPageNumbers extractedState) (ocrText extractedState)
           (selectedAgents extractedState) (results extractedState)
           (processingState extractedState)
           (Some "Please select at least one agent to run."),
   NoCall) ∧
  ∀ runs settleOrder,
    requestAnalysis runs settleOrder extractedState =
    fst (handleRunAnalysis extractedState).
Proof.
  apply (handleRunAnalysis_without_agents extractedState).
  - by vm_compute.
  - reflexivity.
Defined.

(** X5: an accepted analysis request launches the selected agents on the
    current text, and it is [COMPLETE] exactly when every launched
    invocation has settled; until then the state is [ANALYZING] and the
    Results are empty, whatever the invocations that did settle returned. *)
Theorem requestAnalysis_complete_iff_all_settled
    (runs : nat → AgentRun) (settleOrder : list nat) (st : AppState) :
  ocrText st ≠ EmptyString →
  selectedAgents st ≠ [] →
  let st' := requestAnalysis runs settleOrder st in
  snd (handleRunAnalysis st) = AwaitAgents (selectedAgents st) (ocrText st) ∧
  (processingState st' = COMPLETE ↔
   ∀ i, i < length (selectedAgents st) → i ∈ settleOrder) ∧
  (processingState st' = COMPLETE ∨
   processingState st' = ANALYZING ∧ results st' = []).
Proof.
  intros Htext Hagents. cbv zeta.
  assert (Forall (λ i, i ∈ settleOrder) (seq 0 (length (selectedAgents st))) ∨
          ∃ j, j < length (selectedAgents st) ∧ j ∉ settleOrder) as Hcases.
  { destruct (decide (Forall (λ i, i ∈ settleOrder)
                             (seq 0 (length (selectedAgents st)))))
      as [Hall|Hnot]; [by left|right].
    apply not_Forall_Exists in Hnot; [|intros i; apply _].
    apply Exists_exists in Hnot as (j & Hj & Hout).
    apply elem_of_seq in Hj. exists j. split; [lia|done]. }
  split; [|split].
  - unfold handleRunAnalysis. rewrite bool_decide_eq_false_2 by done.
    rewrite bool_decide_eq_false_2; [done|]. by destruct (selectedAgents st).
  - destruct Hcases as [Hall|(j & Hj & Hout)].
    + rewrite Forall_forall in Hall.
      assert (∀ i, i < length (selectedAgents st) → i ∈ settleOrder) as Hall'.
      { intros i Hi. apply Hall, elem_of_seq. lia. }
      by rewrite requestAnalysis_settled.
    + destruct (requestAnalysis_suspended runs settleOrder st j Htext Hj Hout)
        as [Hstate _].
      rewrite Hstate. split; [done|]. intros Hall. by destruct Hout; apply Hall.
  - destruct Hcases as [Hall|(j & Hj & Hout)].
    + left. rewrite Forall_forall in Hall.
      rewrite requestAnalysis_settled; [done..|].
      intros i Hi. apply Hall, elem_of_seq. lia.
    + right. by apply (requestAnalysis_suspended runs settleOrder st j).
Qed.

Lemma requestAnalysis_complete_iff_witness :
  let st' := requestAnalysis sampleRuns [1] agentsChosenState in
  snd (handleRunAnalysis agentsChosenState) =
    AwaitAgents (selectedAgents agentsChosenState) (ocrText agentsChosenState) ∧
  (processingState st' = COMPLETE ↔
   ∀ i, i < length (selectedAgents agentsChosenState) → i ∈ [1]) ∧
  (processingState st' = COMPLETE ∨
   processingState st' = ANALYZING ∧ results st' = []).
Proof.
  apply (requestAnalysis_complete_iff_all_settled sampleRuns [1] agentsChosenState);
    by vm_compute.
Defined.

(** ** Agent selection *)

Section ToggleAgent.
Variable agent : Agent.t.
Implicit Types (prev : list Agent.t) (a : Agent.t).

Let others := λ a : Agent.t, negb (sameName agent a).

Lemma sameName_true a : sameName agent a = true ↔ Agent.name a = Agent.name agent.
Proof. unfold sameName. apply bool_decide_eq_true. Qed.

Lemma others_true a : others a = true ↔ Agent.name a ≠ Agent.name agent.
Proof.
  unfold others. rewrite negb_true_iff, <- not_true_iff_false, sameName_true.
  tauto.
Qed.

Lemma existsb_sameName prev :
  existsb (sameName agent) prev = true ↔
  Agent.name agent ∈ map Agent.name prev.
Proof.
  rewrite existsb_exists. change map with (@fmap list _).
  rewrite list_elem_of_fmap. split.
  - intros (a & Hin & Hsame). exists a. apply sameName_true in Hsame.
    by rewrite list_elem_of_In.
  - intros (a & Hname & Hin). exists a. rewrite sameName_true.
    by rewrite <- list_elem_of_In.
Qed.

Lemma elem_of_others prev a :
  a ∈ List.filter others prev ↔ a ∈ prev ∧ Agent.name a ≠ Agent.name agent.
Proof. by rewrite !list_elem_of_In, filter_In, others_true. Qed.

Lemma others_id prev :
  Agent.name agent ∉ map Agent.name prev → List.filter others prev = prev.
Proof.
  induction prev as [|a prev IH]; intros Hout; [done|]. cbn in *.
  rewrite not_elem_of_cons in Hout. destruct Hout as [Hne Hout].
  rewrite (proj2 (others_true a)) by done. by rewrite IH.
Qed.

Lemma others_idempotent prev :
  List.filter others (List.filter others prev) = List.filter others prev.
Proof.
  induction prev as [|a prev IH]; [done|]. cbn.
  destruct (others a) eqn:Ha; [|done]. cbn. by rewrite Ha, IH.
Qed.

Lemma names_others_sublist prev :
  map Agent.name (List.filter others prev) `sublist_of` map Agent.name prev.
Proof.
  induction prev as [|a prev IH]; [done|]. cbn.
  destruct (others a); cbn; by constructor.
Qed.

Lemma toggled_selection (st : AppState) :
  selectedAgents (toggleAgentSelection agent st) =
  if existsb (sameName agent) (selectedAgents st)
  then List.filter others (selectedAgents st)
  else selectedAgents st ++ [agent].
Proof. done. Qed.

Lemma toggled_selected (st : AppState) :
  Agent.name agent ∈ map Agent.name (selectedAgents st) →
  selectedAgents (toggleAgentSelection agent st) =
  List.filter others (selectedAgents st).
Proof.
  intros Hin. rewrite toggled_selection.
  by rewrite (proj2 (existsb_sameName _) Hin).
Qed.

Lemma toggled_unselected (st : AppState) :
  Agent.name agent ∉ map Agent.name (selectedAgents st) →
  selectedAgents (toggleAgentSelection agent st) = selectedAgents st ++ [agent].
Proof.
  intros Hout. rewrite toggled_selection.
  destruct (existsb (sameName agent) (selectedAgents st)) eqn:Hex; [|done].
  by apply existsb_sameName in Hex.
Qed.

Lemma toggled_names_NoDup (st : AppState) :
  NoDup (map Agent.name (selectedAgents st)) →
  NoDup (map Agent.name (selectedAgents (toggleAgentSelection agent st))).
Proof.
  intros Hnodup.
  destruct (decide (Agent.name agent ∈ map Agent.name (selectedAgents st)))
    as [Hin|Hout].
  - rewrite toggled_selected by done.
    apply (sublist_NoDup _ _ Hnodup), names_others_sublist.
  - rewrite toggled_unselected by done. rewrite map_app. cbn.
    apply NoDup_app. split; [done|]. split; [|apply NoDup_singleton].
    intros n Hn. rewrite list_elem_of_singleton. by intros ->.
Qed.

Lemma toggled_known (known : list Agent.t) (st : AppState) :
  agent ∈ known →
  (∀ a, a ∈ selectedAgents st → a ∈ known) →
  ∀ a, a ∈ selectedAgents (toggleAgentSelection agent st) → a ∈ known.
Proof.
  intros Hagent Hknown a. rewrite toggled_selection.
  destruct (existsb (sameName agent) (selectedAgents st)).
  - rewrite elem_of_others. intros [Ha _]. by apply Hknown.
  - rewrite elem_of_app, list_elem_of_singleton. intros [Ha| ->]; auto.
Qed.
End ToggleAgent.

(** X6: toggling an agent flips whether its name is selected, keeps every
    agent of another name, in the same relative order, keeps the names
    free of duplicates, and touches no other cell of the state. *)
Theorem toggleAgentSelection_flips_one_name (agent : Agent.t) (st : AppState) :
  let others := λ a, negb (sameName agent a) in
  let st' := toggleAgentSelection agent st in
  (Agent.name agent ∈ map Agent.name (selectedAgents st') ↔
   Agent.name agent ∉ map Agent.name (selectedAgents st)) ∧
  List.filter others (selectedAgents st') =
    List.filter others (selectedAgents st) ∧
  (NoDup (map Agent.name (selectedAgents st)) →
   NoDup (map Agent.name (selectedAgents st'))) ∧
  st' = setSelectedAgents (selectedAgents st') st.
Proof.
  cbv zeta. split; [|split; [|split]].
  - destruct (decide (Agent.name agent ∈ map Agent.name (selectedAgents st)))
      as [Hin|Hout].
    + rewrite toggled_selected by done. split; [|done]. intros Hstill.
      change map with (@fmap list _) in Hstill.
      apply list_elem_of_fmap in Hstill as (a & Hname & Ha).
      apply elem_of_others in Ha as [_ Hne]. by destruct Hne.
    + rewrite toggled_unselected by done. split; [done|]. intros _.
      rewrite map_app, elem_of_app. right. cbn. apply list_elem_of_singleton.
      done.
  - destruct (decide (Agent.name agent ∈ map Agent.name (selectedAgents st)))
      as [Hin|Hout].
    + rewrite toggled_selected by done. apply others_idempotent.
    + rewrite toggled_unselected by done. rewrite List.filter_app. cbn.
      unfold sameName. rewrite bool_decide_eq_true_2 by done. cbn.
      by rewrite app_nil_r.
  - apply toggled_names_NoDup.
  - done.
Qed.

(** X7: toggling the same agent twice gives back the state when the agent
    was not selected; when it was, the agent ends up last in the
    selection, behind the others in their old order.  In both cases the
    same names are selected as before. *)
Theorem toggleAgentSelection_twice (agent : Agent.t) (st : AppState) :
  let st2 := toggleAgentSelection agent (toggleAgentSelection agent st) in
  (Agent.name agent ∉ map Agent.name (selectedAgents st) → st2 = st) ∧
  (Agent.name agent ∈ map Agent.name (selectedAgents st) →
   selectedAgents st2 =
   List.filter (λ a, negb (sameName agent a)) (selectedAgents st) ++ [agent]) ∧
  (∀ n, n ∈ map Agent.name (selectedAgents st2) ↔
        n ∈ map Agent.name (selectedAgents st)).
Proof.
  cbv zeta.
  assert (Agent.name agent ∉ map Agent.name (selectedAgents st) →
          selectedAgents (toggleAgentSelection agent (toggleAgentSelection agent st))
          = selectedAgents st) as Habsent.
  { intros Hout. rewrite toggled_selected.
    - rewrite toggled_unselected by done. rewrite List.filter_app. cbn.
      unfold sameName at 2. rewrite bool_decide_eq_true_2 by done. cbn.
      by rewrite app_nil_r, others_id.
    - rewrite toggled_unselected by done. rewrite map_app, elem_of_app.
      right. by apply list_elem_of_singleton. }
  assert (Agent.name agent ∈ map Agent.name (selectedAgents st) →
          selectedAgents (toggleAgentSelection agent (toggleAgentSelection agent st))
          = List.filter (λ a, negb (sameName agent a)) (selectedAgents st) ++ [agent])
    as Hpresent.
  { intros Hin. rewrite toggled_unselected; [by rewrite toggled_selected|].
    rewrite toggled_selected by done. intros Hstill.
    change map with (@fmap list _) in Hstill.
    apply list_elem_of_fmap in Hstill as (a & Hname & Ha).
    apply elem_of_others in Ha as [_ Hne]. by destruct Hne. }
  split; [|split].
  - intros Hout. specialize (Habsent Hout). destruct st. cbn in *.
    unfold toggleAgentSelection, setSelectedAgents in *. cbn in *.
    by rewrite Habsent.
  - exact Hpresent.
  - intros n.
    destruct (decide (Agent.name agent ∈ map Agent.name (selectedAgents st)))
      as [Hin|Hout]; [|by rewrite Habsent].
    rewrite Hpresent by done. rewrite map_app, elem_of_app. cbn.
    rewrite list_elem_of_singleton.
    change map with (@fmap list _). rewrite !list_elem_of_fmap. split.
    + intros [(a & -> & Ha)| ->].
      * apply elem_of_others in Ha as [Ha _]. by exists a.
      * change (@fmap list _) with (@map Agent.t string) in Hin.
        change map with (@fmap list _) in Hin.
        by apply list_elem_of_fmap in Hin.
    + intros (a & -> & Ha).
      destruct (decide (Agent.name a = Agent.name agent)) as [Heq|Hne];
        [by right|left].
      exists a. split; [done|]. by apply elem_of_others.
Qed.

(** ** Rendering, whether or not every page gets a canvas context *)

(** When no page of the range rejects, the loop appends the pages that
    were rendered, in order, and adds exactly their numbers. *)
Lemma renderLoop_completes (pdf : PdfDocument) :
  ∀ (remaining i : nat) (pagesData : list PageData.t) (sel : gset nat),
    (∀ j, i ≤ j < i + remaining → renderPage pdf j ≠ RenderRejects) →
    let shown := List.filter (λ j, isRendered (renderPage pdf j)) (seq i remaining) in
    renderLoop pdf remaining i pagesData sel =
    Some (pagesData ++
            map (λ j, PageData.mk j (renderedUrl (renderPage pdf j))) shown,
          list_to_set shown ∪ sel).
Proof.
  cbv zeta. induction remaining as [|k IH]; intros i pagesData sel Hok.
  - cbn. by rewrite app_nil_r, (left_id_L ∅ (∪)).
  - cbn [renderLoop seq List.filter].
    assert (∀ j, S i ≤ j < S i + k → renderPage pdf j ≠ RenderRejects) as Hrest.
    { intros j Hj. apply Hok. lia. }
    destruct (renderPage pdf i) as [url| |] eqn:Hi.
    + rewrite IH by done. cbn [isRendered map list_to_set].
      rewrite Hi. cbn [renderedUrl]. rewrite <- app_assoc. cbn [app].
      by rewrite (assoc_L (∪)), (comm_L (∪) _ {[i]}).
    + by rewrite IH.
    + by destruct (Hok i); [lia|].
Qed.

Lemma filter_seq_sublist (P : nat → bool) (i n : nat) :
  List.filter P (seq i n) `sublist_of` seq i n.
Proof.
  generalize (seq i n) as l. induction l as [|x l IH]; [done|]. cbn.
  destruct (P x); by constructor.
Qed.

Lemma filter_all_selected (sel : gset nat) (pages : list PageData.t) :
  (∀ p, p ∈ pages → PageData.pageNumber p ∈ sel) →
  filter (λ p, PageData.pageNumber p ∈ sel) pages = pages.
Proof.
  induction pages as [|p pages IH]; intros Hall; [done|].
  rewrite filter_cons_True by (apply Hall; rewrite elem_of_cons; by left).
  rewrite IH; [done|]. intros q Hq. apply Hall. rewrite elem_of_cons. by right.
Qed.

Lemma selectDocument_completes (f : File.t) (pdf : PdfDocument) (st : AppState) :
  File.type f = "application/pdf" →
  (∀ j, 1 ≤ j ≤ numPages pdf → renderPage pdf j ≠ RenderRejects) →
  let shown := List.filter (λ j, isRendered (renderPage pdf j))
                           (seq 1 (numPages pdf)) in
  selectDocument (Some f) ReadScheduled (Loaded pdf) st =
  mkState (Some f)
    (map (λ j, PageData.mk j (renderedUrl (renderPage pdf j))) shown)
    (list_to_set shown ∪ ∅) EmptyString (selectedAgents st) [] IDLE None.
Proof.
  intros Hpdf Hok. cbv zeta. unfold selectDocument.
  rewrite (handleFileChange_accepts f st Hpdf). unfold fileReader_onload.
  rewrite renderLoop_completes by (intros j Hj; apply Hok; lia).
  by rewrite resetForDocument_fields.
Qed.

(** X8: when no page rejects, whether or not every page gets a canvas
    context, the document selection ends in [IDLE] with: Pages holding
    exactly the pages that were rendered, in ascending order of page
    number and each with the image rendered for it; the Page Selection
    being exactly the set of page numbers of Pages; and an extraction
    requested right away sending all of Pages. *)
Theorem selectDocument_selects_exactly_the_rendered_pages
    (f : File.t) (pdf : PdfDocument) (st : AppState) :
  File.type f = "application/pdf" →
  (∀ j, 1 ≤ j ≤ numPages pdf → renderPage pdf j ≠ RenderRejects) →
  let st' := selectDocument (Some f) ReadScheduled (Loaded pdf) st in
  pageNumbers st' =
    List.filter (λ j, isRendered (renderPage pdf j)) (seq 1 (numPages pdf)) ∧
  pageNumbers st' `sublist_of` seq 1 (numPages pdf) ∧
  (∀ p, p ∈ selectedPageNumbers st' ↔ p ∈ pageNumbers st') ∧
  (∀ page, page ∈ pdfPages st' →
     renderPage pdf (PageData.pageNumber page) =
     Rendered (PageData.imageDataUrl page)) ∧
  processingState st' = IDLE ∧
  snd (handleOcr st') =
    match pdfPages st' with
    | [] => NoCall
    | _ :: _ => AwaitOcr (pdfPages st')
    end.
Proof.
  intros Hpdf Hok. cbv zeta.
  rewrite (selectDocument_completes f pdf st Hpdf Hok).
  set (shown := List.filter _ _).
  assert (∀ p, p ∈ list_to_set (C:=gset nat) shown ∪ ∅ ↔ p ∈ shown) as Hsel.
  { intros p. by rewrite (right_id_L ∅ (∪)), elem_of_list_to_set. }
  unfold pageNumbers. cbn [pdfPages selectedPageNumbers processingState].
  assert (map PageData.pageNumber
            (map (λ j, PageData.mk j (renderedUrl (renderPage pdf j))) shown)
          = shown) as Hnumbers.
  { rewrite map_map. cbn. apply map_id. }
  rewrite Hnumbers.
  split; [done|]. split; [apply filter_seq_sublist|]. split; [exact Hsel|].
  split; [|split; [done|]].
  - intros page Hpage. change map with (@fmap list _) in Hpage.
    apply list_elem_of_fmap in Hpage as (j & -> & Hj). cbn.
    apply list_elem_of_In, filter_In in Hj as [_ Hrendered].
    by destruct (renderPage pdf j).
  - rewrite handleOcr_pending. cbv zeta.
    cbn [pdfPages selectedPageNumbers].
    rewrite filter_all_selected; [done|].
    intros page Hpage. apply Hsel. rewrite <- Hnumbers.
    change map with (@fmap list _). apply list_elem_of_fmap. by exists page.
Qed.

Lemma selectDocument_rendered_pages_witness :
  let st' := selectDocument (Some samplePdf) ReadScheduled
               (Loaded secondPageWithoutContext) completeState in
  pageNumbers st' =
    List.filter (λ j, isRendered (renderPage secondPageWithoutContext j))
                (seq 1 (numPages secondPageWithoutContext)) ∧
  pageNumbers st' `sublist_of` seq 1 (numPages secondPageWithoutContext) ∧
  (∀ p, p ∈ selectedPageNumbers st' ↔ p ∈ pageNumbers st') ∧
  (∀ page, page ∈ pdfPages st' →
     renderPage secondPageWithoutContext (PageData.pageNumber page) =
     Rendered (PageData.imageDataUrl page)) ∧
  processingState st' = IDLE ∧
  snd (handleOcr st') =
    match pdfPages st' with
    | [] => NoCall
    | _ :: _ => AwaitOcr (pdfPages st')
    end.
Proof.
  apply (selectDocument_selects_exactly_the_rendered_pages samplePdf
           secondPageWithoutContext completeState).
  - reflexivity.
  - intros j Hj. unfold secondPageWithoutContext. cbn.
    by destruct (decide (j = 2)).
Defined.

(** X9: when [getPage] or [render] rejects for page [j], the pages
    rendered before it are dropped with the local array: Pages and the
    Page Selection stay empty, and the state stays as the handler set it
    ([RENDERING_PDF], no error). *)
Theorem selectDocument_rejection_keeps_no_page
    (f : File.t) (pdf : PdfDocument) (j : nat) (st : AppState) :
  File.type f = "application/pdf" →
  1 ≤ j ≤ numPages pdf →
  renderPage pdf j = RenderRejects →
  (∀ k, 1 ≤ k < j → renderPage pdf k ≠ RenderRejects) →
  let st' := selectDocument (Some f) ReadScheduled (Loaded pdf) st in
  pdfPages st' = [] ∧
  selectedPageNumbers st' = ∅ ∧
  processingState st' = RENDERING_PDF ∧
  error st' = None.
Proof.
  intros Hpdf Hj Hrej Hbefore. cbv zeta.
  rewrite (selectDocument_page_rejects f pdf j st Hpdf Hj Hrej Hbefore).
  by rewrite resetForDocument_fields.
Qed.

Lemma selectDocument_rejection_witness :
  let st' := selectDocument (Some samplePdf) ReadScheduled
               (Loaded secondPageRejects) completeState in
  pdfPages st' = [] ∧
  selectedPageNumbers st' = ∅ ∧
  processingState st' = RENDERING_PDF ∧
  error st' = None.
Proof.
  apply (selectDocument_rejection_keeps_no_page samplePdf secondPageRejects 2
           completeState).
  - reflexivity.
  - cbn. lia.
  - reflexivity.
  - intros k Hk. assert (k = 1) as -> by lia. cbn. discriminate.
Defined.

(** ** The accumulated output *)

Lemma length_append (s t : string) :
  String.length (s +:+ t) = String.length s + String.length t.
Proof.
  induction s as [|c s IH]; [done|].
  change (S (String.length (s +:+ t)) = S (String.length s + String.length t)).
  by rewrite IH.
Qed.

Lemma accumulate_app (xs ys : list string) :
  accumulate (xs ++ ys) = accumulate xs +:+ accumulate ys.
Proof.
  induction xs as [|x xs IH]; [done|].
  cbn [app]. by rewrite !accumulate_cons, IH, append_assoc.
Qed.

(** X10: the output accumulated by [fullOutput += chunk] is the
    concatenation of the chunks in emission order ([String.concat] with
    the empty separator: nothing for no chunk, the first chunk followed
    by the rest otherwise).  Hence it is the same however the text is cut
    into chunks, and its length is the sum of the lengths of the chunks.
    A chunk whose [text] is undefined contributes the text [undefined]. *)
Theorem accumulate_is_concatenation (xs ys : list string) (x y : string) :
  accumulate xs = String.concat EmptyString xs ∧
  accumulate [] = EmptyString ∧
  accumulate (x :: xs) = x +:+ accumulate xs ∧
  accumulate (xs ++ ys) = accumulate xs +:+ accumulate ys ∧
  accumulate (xs ++ (x +:+ y) :: ys) = accumulate (xs ++ x :: y :: ys) ∧
  String.length (accumulate xs) = sum_list (map String.length xs) ∧
  accumulate (chunkTexts (streamOfTexts [Some x; None; Some y] None)) =
    x +:+ "undefined" +:+ y ∧
  accumulate ["Revenue grew "; "by 10%."] = "Revenue grew by 10%.".
Proof.
  split; [apply accumulate_concat|]. split; [done|].
  split; [apply accumulate_cons|].
  split; [apply accumulate_app|]. split; [|split; [|split]].
  - by rewrite !accumulate_app, !accumulate_cons, append_assoc.
  - induction xs as [|c xs IH]; [done|].
    rewrite accumulate_cons, length_append, IH. done.
  - cbn [streamOfTexts chunkTexts map appendedText].
    by rewrite !accumulate_cons, append_empty_r.
  - reflexivity.
Qed.

(** ** The dashboard series *)

Lemma elem_of_radarData (results : list AnalysisResult.t) (d : RadarDatum.t) :
  d ∈ radarData results →
  ∃ r, r ∈ results ∧ RadarDatum.length d = outputLength r ∧
       RadarDatum.subject d = AnalysisResult.agentName r.
Proof.
  unfold radarData. generalize (maxOutputLength results) as m. intros m.
  change map with (@fmap list _). intros Hd.
  apply list_elem_of_fmap in Hd as (r & -> & Hr). by exists r.
Qed.

(** X11: the maximum that is scaled into [fullMark] is at least 1 and at
    least the character count of every entry of the series, and it is
    either the floor 1 or the character count of some result. *)
Theorem maxOutputLength_bounds (results : list AnalysisResult.t) :
  1 ≤ maxOutputLength results ∧
  (∀ d, d ∈ radarData results → RadarDatum.length d ≤ maxOutputLength results) ∧
  (maxOutputLength results = 1 ∨
   ∃ r, r ∈ results ∧ outputLength r = maxOutputLength results).
Proof.
  rewrite maxOutputLength_floor. split; [lia|]. split.
  - intros d Hd. apply elem_of_radarData in Hd as (r & Hr & -> & _).
    assert (outputLength r ≤ max_list (map outputLength results)); [|lia].
    apply max_list_elem_of_le. change map with (@fmap list _).
    apply list_elem_of_fmap. by exists r.
  - destruct results as [|r0 results]; [by left|].
    destruct (Nat.max_spec (max_list (map outputLength (r0 :: results))) 1)
      as [[_ ->]|[_ Hmax]]; [by left|right].
    rewrite Hmax.
    pose proof (max_list_elem_of (map outputLength (r0 :: results))) as Hin.
    change map with (@fmap list _) in Hin.
    destruct (proj1 (list_elem_of_fmap _ _ _) (Hin ltac:(done)))
      as (r & Hlen & Hr).
    exists r. split; [done|]. by rewrite <- Hlen.
Qed.

(** X12: after an analysis run whose invocations have all settled, both
    dashboard series list the selected agents by name in the order of the
    selection; the [i]-th latency entry carries the latency of the [i]-th
    invocation alone, and its provider is [System] exactly when that
    invocation failed.  When the selected names are distinct so are the
    names of the results. *)
Theorem dashboard_after_analysis
    (runs : nat → AgentRun) (settleOrder : list nat) (st : AppState) :
  ocrText st ≠ EmptyString →
  selectedAgents st ≠ [] →
  (∀ i, i < length (selectedAgents st) → i ∈ settleOrder) →
  let st' := requestAnalysis runs settleOrder st in
  map LatencyDatum.name (fst (dashboardData st')) =
    map Agent.name (selectedAgents st) ∧
  map RadarDatum.subject (snd (dashboardData st')) =
    map Agent.name (selectedAgents st) ∧
  (∀ i d, fst (dashboardData st') !! i = Some d →
     LatencyDatum.latency d =
       secondsSince (startTime (runs i)) (settleTime (runs i)) ∧
     (LatencyDatum.provider d = "System" ↔
      streamError (apiStream (runs i)) ≠ None)) ∧
  (NoDup (map Agent.name (selectedAgents st)) →
   NoDup (map AnalysisResult.agentName (results st'))).
Proof.
  intros Htext Hagents Hall. cbv zeta.
  rewrite requestAnalysis_settled by done.
  unfold dashboardData. cbn [results fst snd].
  split; [|split; [|split]].
  - unfold latencyData. rewrite map_map. cbn.
    apply agentNames_analysisPromises.
  - unfold radarData. rewrite map_map. cbn.
    apply agentNames_analysisPromises.
  - intros i d. unfold latencyData. change map with (@fmap list _).
    rewrite list_lookup_fmap, lookup_analysisPromises.
    destruct (selectedAgents st !! i) as [a|]; [|done]. cbn.
    intros [= <-]. cbn.
    destruct (streamError (apiStream (runs i))) as [err|] eqn:Hstream.
    + rewrite analysisPromise_failure by (by rewrite Hstream). by cbn.
    + rewrite analysisPromise_success by done. cbn. split; [done|].
      split; [discriminate|done].
  - by rewrite agentNames_analysisPromises.
Qed.

Lemma dashboard_after_analysis_witness :
  let st' := requestAnalysis sampleRuns [1; 0] agentsChosenState in
  map LatencyDatum.name (fst (dashboardData st')) =
    map Agent.name (selectedAgents agentsChosenState) ∧
  map RadarDatum.subject (snd (dashboardData st')) =
    map Agent.name (selectedAgents agentsChosenState) ∧
  (∀ i d, fst (dashboardData st') !! i = Some d →
     LatencyDatum.latency d =
       secondsSince (startTime (sampleRuns i)) (settleTime (sampleRuns i)) ∧
     (LatencyDatum.provider d = "System" ↔
      streamError (apiStream (sampleRuns i)) ≠ None)) ∧
  (NoDup (map Agent.name (selectedAgents agentsChosenState)) →
   NoDup (map AnalysisResult.agentName (results st'))).
Proof.
  apply (dashboard_after_analysis sampleRuns [1; 0] agentsChosenState).
  - by vm_compute.
  - by vm_compute.
  - exact sample_all_settled.
Defined.

(** ** The extraction request *)

Section SplitComma.
Implicit Types (s t piece : string) (c : ascii).

Lemma append_String c s t : String c s +:+ t = String c (s +:+ t).
Proof. done. Qed.

Lemma commaFree_String c s :
  commaFree (String c s) ↔ c ≠ ","%char ∧ commaFree s.
Proof.
  unfold commaFree. cbn. rewrite not_elem_of_cons. split.
  - intros [Hc Hs]. split; [by intros ->|done].
  - intros [Hc Hs]. split; [by intros <-|done].
Qed.

Lemma commaFree_empty : commaFree EmptyString.
Proof. unfold commaFree. cbn. apply not_elem_of_nil. Qed.

Lemma eqb_comma c : Ascii.eqb c ","%char = true ↔ c = ","%char.
Proof. apply Ascii.eqb_eq. Qed.

Lemma splitComma_not_nil s : splitComma s ≠ [].
Proof.
  destruct s as [|c s]; [done|]. cbn.
  destruct (Ascii.eqb c ","); [done|]. by destruct (splitComma s).
Qed.

Lemma splitComma_commaFree s : commaFree s → splitComma s = [s].
Proof.
  induction s as [|c s IH]; [done|]. rewrite commaFree_String.
  intros [Hc Hs]. cbn. rewrite IH by done.
  destruct (Ascii.eqb c ",") eqn:Heq; [|done]. by apply eqb_comma in Heq.
Qed.

Lemma splitComma_at_first_comma s t :
  commaFree s → splitComma (s +:+ "," +:+ t) = s :: splitComma t.
Proof.
  induction s as [|c s IH]; [done|]. rewrite commaFree_String.
  intros [Hc Hs]. rewrite append_String. cbn [splitComma]. rewrite IH by done.
  destruct (Ascii.eqb c ",") eqn:Heq; [|done]. by apply eqb_comma in Heq.
Qed.

Lemma splitComma_pieces s : ∀ piece, piece ∈ splitComma s → commaFree piece.
Proof.
  induction s as [|c s IH]; intros piece; cbn.
  - rewrite list_elem_of_singleton. intros ->. apply commaFree_empty.
  - destruct (Ascii.eqb c ",") eqn:Heq.
    + rewrite elem_of_cons. intros [->|Hin]; [apply commaFree_empty|by apply IH].
    + assert (c ≠ ","%char) as Hc.
      { intros ->. by rewrite Ascii.eqb_refl in Heq. }
      destruct (splitComma s) as [|first rest].
      * rewrite list_elem_of_singleton. intros ->.
        apply commaFree_String. split; [done|apply commaFree_empty].
      * rewrite elem_of_cons. intros [->|Hin].
        -- apply commaFree_String. split; [done|].
           apply IH. rewrite elem_of_cons. by left.
        -- apply IH. rewrite elem_of_cons. by right.
Qed.

Lemma concat_splitComma s : String.concat "," (splitComma s) = s.
Proof.
  induction s as [|c s IH]; [done|]. cbn [splitComma].
  pose proof (splitComma_not_nil s) as Hne.
  destruct (Ascii.eqb c ",") eqn:Heq.
  - apply eqb_comma in Heq as ->.
    destruct (splitComma s) as [|first rest]; [done|].
    cbn [String.concat]. cbn [String.concat] in IH. by rewrite IH.
  - destruct (splitComma s) as [|first rest]; [done|].
    destruct rest as [|second rest].
    + cbn in IH. cbn. by rewrite IH.
    + cbn [String.concat] in *. by rewrite append_String, IH.
Qed.
End SplitComma.

(** [split(',')] cuts a string into comma-free pieces that, joined by
    commas, give the string back. *)
Theorem splitComma_round_trip (s : string) :
  String.concat "," (splitComma s) = s ∧
  (∀ piece, piece ∈ splitComma s → commaFree piece) ∧
  splitComma s ≠ [].
Proof.
  split; [apply concat_splitComma|].
  split; [apply splitComma_pieces|apply splitComma_not_nil].
Qed.

(** X13: for a data URL made of a comma-free header, a comma and a
    comma-free payload, [base64ToPart] keeps the payload; anything after a
    further comma is cut off; and a string without a comma gives a part
    whose data is undefined. *)
Theorem base64ToPart_keeps_the_payload (header payload mimeType : string) :
  commaFree header →
  commaFree payload →
  base64ToPart (header +:+ "," +:+ payload) mimeType =
    InlineData (Some payload) mimeType ∧
  (∀ tail, base64ToPart (header +:+ "," +:+ payload +:+ "," +:+ tail) mimeType =
           InlineData (Some payload) mimeType) ∧
  base64ToPart header mimeType = InlineData None mimeType.
Proof.
  intros Hheader Hpayload. unfold base64ToPart. split; [|split].
  - by rewrite splitComma_at_first_comma, splitComma_commaFree.
  - intros tail. by rewrite !splitComma_at_first_comma.
  - by rewrite splitComma_commaFree.
Qed.

Lemma sample_header_commaFree : commaFree "data:image/png;base64".
Proof. apply (bool_decide_unpack _). by vm_compute. Defined.

Lemma sample_payload_commaFree : commaFree "iVBORw0KGgo=".
Proof. apply (bool_decide_unpack _). by vm_compute. Defined.

Lemma base64ToPart_witness :
  base64ToPart ("data:image/png;base64" +:+ "," +:+ "iVBORw0KGgo=") "image/png" =
    InlineData (Some "iVBORw0KGgo=") "image/png" ∧
  (∀ tail,
     base64ToPart ("data:image/png;base64" +:+ "," +:+ "iVBORw0KGgo=" +:+ "," +:+ tail)
       "image/png" =
     InlineData (Some "iVBORw0KGgo=") "image/png") ∧
  base64ToPart "data:image/png;base64" "image/png" = InlineData None "image/png".
Proof.
  apply (base64ToPart_keeps_the_payload "data:image/png;base64" "iVBORw0KGgo="
           "image/png").
  - exact sample_header_commaFree.
  - exact sample_payload_commaFree.
Defined.

(** X14: for pages whose images are PNG data URLs, the request of
    [performOcrOnPages] names the image model and holds the prompt
    followed by the base64 payload of each page as an [image/png] part,
    in the order of the pages; for no page at all no request is made and
    the result is the empty text, whatever the API would have answered. *)
Theorem ocrRequest_carries_the_pages_in_order
    (pages : list PageData.t) (payloadOf : PageData.t → string) :
  pages ≠ [] →
  (∀ page, page ∈ pages →
     PageData.imageDataUrl page = "data:image/png;base64" +:+ "," +:+ payloadOf page ∧
     commaFree (payloadOf page)) →
  ocrRequest pages =
    Some (mkRequest "gemini-2.5-flash-image"
            (TextPart ocrPrompt ::
             map (λ page, InlineData (Some (payloadOf page)) "image/png") pages)
            None) ∧
  ocrRequest [] = None ∧
  ∀ api, performOcrOnPages [] api = Resolves EmptyString.
Proof.
  intros Hne Hurls. split; [|done].
  destruct pages as [|page0 rest]; [done|]. unfold ocrRequest.
  do 3 f_equal. apply map_ext_in. intros page Hpage.
  apply list_elem_of_In in Hpage. destruct (Hurls page Hpage) as [-> Hfree].
  by apply base64ToPart_keeps_the_payload;
    [exact sample_header_commaFree|].
Qed.

Lemma ocrRequest_witness :
  let pages := [PageData.mk 1 "data:image/png;base64,iVBORw0KGgo=";
                PageData.mk 3 "data:image/png;base64,AAAA"] in
  let payloadOf := λ page : PageData.t,
    if decide (PageData.pageNumber page = 1) then "iVBORw0KGgo=" else "AAAA" in
  ocrRequest pages =
    Some (mkRequest "gemini-2.5-flash-image"
            (TextPart ocrPrompt ::
             map (λ page, InlineData (Some (payloadOf page)) "image/png") pages)
            None) ∧
  ocrRequest [] = None ∧
  ∀ api, performOcrOnPages [] api = Resolves EmptyString.
Proof.
  cbv zeta.
  apply (ocrRequest_carries_the_pages_in_order
           [PageData.mk 1 "data:image/png;base64,iVBORw0KGgo=";
            PageData.mk 3 "data:image/png;base64,AAAA"]
           (λ page, if decide (PageData.pageNumber page = 1)
                    then "iVBORw0KGgo=" else "AAAA")).
  - done.
  - intros page Hpage. rewrite !elem_of_cons, elem_of_nil in Hpage.
    destruct Hpage as [->|[->|[]]]; cbn;
      (split; [reflexivity|apply (bool_decide_unpack _); by vm_compute]).
Defined.

(** ** Invariants of the reachable states *)

(** Whatever the loop returns, it has appended pages whose numbers form a
    subsequence of the range and has added exactly those numbers. *)
Lemma renderLoop_Some_inv (pdf : PdfDocument) :
  ∀ (remaining i : nat) (pagesData pagesData' : list PageData.t)
    (sel sel' : gset nat),
    renderLoop pdf remaining i pagesData sel = Some (pagesData', sel') →
    ∃ shown,
      shown `sublist_of` seq i remaining ∧
      map PageData.pageNumber pagesData' =
        map PageData.pageNumber pagesData ++ shown ∧
      sel' = list_to_set shown ∪ sel.
Proof.
  induction remaining as [|k IH]; intros i pagesData pagesData' sel sel' Hrun.
  - injection Hrun as <- <-. exists []. split; [done|]. cbn.
    by rewrite app_nil_r, (left_id_L ∅ (∪)).
  - cbn [renderLoop] in Hrun. destruct (renderPage pdf i) as [url| |]; [| |done].
    + apply IH in Hrun as (shown & Hsub & Hpages & ->).
      exists (i :: shown). split; [by constructor|]. split.
      * rewrite Hpages, map_app, <- app_assoc. done.
      * cbn. by rewrite (assoc_L (∪)), (comm_L (∪) _ {[i]}).
    + apply IH in Hrun as (shown & Hsub & Hpages & ->).
      exists shown. split; [by constructor|done].
Qed.

Lemma invariant_frame (st st' : AppState) :
  processingState st' ≠ UPLOADING →
  pdfPages st' = pdfPages st →
  selectedPageNumbers st' = selectedPageNumbers st →
  selectedAgents st' = selectedAgents st →
  Invariant st → Invariant st'.
Proof.
  intros Hstatus Hpages Hsel Hagents [_ Hp Hs Hk Hn].
  split; unfold pageNumbers in *; by rewrite ?Hpages, ?Hsel, ?Hagents.
Qed.

Lemma invariant_new_pages (st st' : AppState) (shown : list nat) (n : nat) :
  processingState st' ≠ UPLOADING →
  shown `sublist_of` seq 1 n →
  pageNumbers st' = shown →
  selectedPageNumbers st' = list_to_set shown ∪ ∅ →
  selectedAgents st' = selectedAgents st →
  Invariant st → Invariant st'.
Proof.
  intros Hstatus Hsub Hpages Hsel Hagents [_ _ _ Hk Hn].
  split; rewrite ?Hpages, ?Hsel, ?Hagents; try done.
  - by exists n.
  - intros p. by rewrite (right_id_L ∅ (∪)), elem_of_list_to_set.
Qed.

Lemma AGENTS_names_NoDup : NoDup (map Agent.name AGENTS).
Proof. apply (bool_decide_unpack _). by vm_compute. Qed.

Lemma invariant_initial : Invariant initialState.
Proof.
  split.
  - done.
  - exists 0. constructor.
  - intros p Hp. by apply not_elem_of_empty in Hp.
  - intros a Ha. by apply elem_of_nil in Ha.
  - constructor.
Qed.

Lemma invariant_step (st st' : AppState) :
  Invariant st → Step st st' → Invariant st'.
Proof.
  intros Hinv Hstep. pose proof (inv_status st Hinv) as Hstatus0.
  destruct Hstep as
    [selectedFile rd st|load st|p st Hp|st _ _|r st|agent st _ Hagent
    |st _ _|settledResults st].
  - unfold handleFileChange. destruct selectedFile as [f|].
    + destruct (bool_decide (File.type f = "application/pdf")).
      * destruct rd; cbn [fst].
        -- apply (invariant_new_pages st _ [] 0); done || constructor.
        -- apply (invariant_new_pages st _ [] 0); done || constructor.
      * by apply (invariant_frame st).
    + by apply (invariant_frame st).
  - unfold fileReader_onload. destruct load as [pdf|]; [|done].
    destruct (renderLoop pdf (numPages pdf) 1 [] ∅) as [[pagesData sel]|]
      eqn:Hrun; [|done].
    apply renderLoop_Some_inv in Hrun as (shown & Hsub & Hpages & ->).
    by apply (invariant_new_pages st _ shown (numPages pdf)).
  - destruct Hinv as [Hstatus Hpages Hsel Hknown Hnames].
    split; try done. intros q. cbn.
    destruct (decide (q = p)) as [->|Hne]; [done|].
    rewrite toggleInSet_other by done. apply Hsel.
  - unfold handleOcr. destruct (bool_decide _); by apply (invariant_frame st).
  - destruct r; by apply (invariant_frame st).
  - destruct Hinv as [Hstatus Hpages Hsel Hknown Hnames].
    split; try done.
    + by apply toggled_known.
    + by apply toggled_names_NoDup.
  - unfold handleRunAnalysis.
    destruct (bool_decide _); [by apply (invariant_frame st)|].
    destruct (bool_decide _); by apply (invariant_frame st).
  - by apply (invariant_frame st).
Qed.

Lemma reachable_invariant (st : AppState) : Reachable st → Invariant st.
Proof.
  unfold Reachable. revert st.
  apply (rtc_ind_r (λ st, Invariant st)); [apply invariant_initial|].
  intros st st' _ Hstep Hinv. by apply (invariant_step st).
Qed.

(** The sample session is a run of the component. *)
Lemma completeState_reachable : Reachable completeState.
Proof.
  unfold Reachable.
  assert (rtc Step initialState renderedState) as Hrendered.
  { eapply rtc_l; [apply (step_fileChange (Some samplePdf) ReadScheduled)|].
    apply rtc_once. apply (step_onload (Loaded threePages)). }
  assert (rtc Step renderedState extractedState) as Hextracted.
  { eapply rtc_l;
      [apply (step_togglePage 2); apply (bool_decide_unpack _); by vm_compute|].
    eapply rtc_l; [apply step_ocr; by vm_compute|].
    apply rtc_once. apply (step_ocrSettled (Resolves "Q1 revenue grew 10%.")). }
  assert (rtc Step extractedState agentsChosenState) as Hchosen.
  { eapply rtc_l;
      [apply (step_toggleAgent documentSummarizer);
       [by vm_compute|apply list_elem_of_In; cbn; tauto]|].
    apply rtc_once. apply (step_toggleAgent keywordExtractor);
      [by vm_compute|apply list_elem_of_In; cbn; tauto]. }
  assert (rtc Step agentsChosenState completeState) as Hcomplete.
  { eapply rtc_l; [apply step_runAnalysis; by vm_compute|].
    apply rtc_once.
    apply (step_analysisSettled
             (analysisPromises (ocrText agentsChosenState)
                (selectedAgents agentsChosenState) sampleRuns)). }
  by repeat (etrans; [eassumption|]).
Defined.

(** X15: in every reachable state the Page Selection holds only numbers
    of pages in Pages, the page numbers of Pages are a subsequence of
    1..n for some n (ascending, without duplicates), and the count of
    selected pages shown in the heading is at most the count of pages. *)
Theorem reachable_selection_within_pages (st : AppState) :
  Reachable st →
  (∀ p, p ∈ selectedPageNumbers st → p ∈ pageNumbers st) ∧
  (∃ n, pageNumbers st `sublist_of` seq 1 n) ∧
  NoDup (pageNumbers st) ∧
  size (selectedPageNumbers st) ≤ length (pdfPages st).
Proof.
  intros Hreach.
  destruct (reachable_invariant st Hreach) as [_ [n Hsub] Hsel _ _].
  assert (NoDup (pageNumbers st)) as Hnodup.
  { apply (sublist_NoDup _ (seq 1 n)); [apply NoDup_seq|done]. }
  split; [done|]. split; [by exists n|]. split; [done|].
  assert (selectedPageNumbers st ⊆ list_to_set (pageNumbers st)) as Hincl.
  { intros p Hp. apply elem_of_list_to_set. by apply Hsel. }
  apply subseteq_size in Hincl.
  rewrite size_list_to_set in Hincl by done.
  unfold pageNumbers in Hincl. by rewrite length_map in Hincl.
Qed.

Lemma reachable_selection_witness :
  (∀ p, p ∈ selectedPageNumbers completeState → p ∈ pageNumbers completeState) ∧
  (∃ n, pageNumbers completeState `sublist_of` seq 1 n) ∧
  NoDup (pageNumbers completeState) ∧
  size (selectedPageNumbers completeState) ≤ length (pdfPages completeState).
Proof.
  apply (reachable_selection_within_pages completeState).
  exact completeState_reachable.
Defined.

(** X16: in every reachable state the selected agents are members of
    [AGENTS] with pairwise distinct names, so at most five are selected. *)
Theorem reachable_agent_selection (st : AppState) :
  Reachable st →
  (∀ a, a ∈ selectedAgents st → a ∈ AGENTS) ∧
  NoDup (map Agent.name (selectedAgents st)) ∧
  length (selectedAgents st) ≤ 5.
Proof.
  intros Hreach.
  destruct (reachable_invariant st Hreach) as [_ _ _ Hknown Hnames].
  split; [done|]. split; [done|].
  change 5 with (length AGENTS).
  apply submseteq_length, NoDup_submseteq; [|done].
  change map with (@fmap list _) in Hnames. by apply NoDup_fmap_1 in Hnames.
Qed.

Lemma reachable_agent_selection_witness :
  (∀ a, a ∈ selectedAgents completeState → a ∈ AGENTS) ∧
  NoDup (map Agent.name (selectedAgents completeState)) ∧
  length (selectedAgents completeState) ≤ 5.
Proof.
  apply (reachable_agent_selection completeState).
  exact completeState_reachable.
Defined.

(** X17: no reachable state has the Processing State [UPLOADING], the one
    value for which [statusMap] has no entry: the header always finds its
    text, icon and colour. *)
Theorem reachable_status_is_mapped (st : AppState) :
  Reachable st →
  processingState st ≠ UPLOADING ∧
  is_Some (statusMap (processingState st)) ∧
  (∀ s, statusMap s = None ↔ s = UPLOADING).
Proof.
  intros Hreach.
  destruct (reachable_invariant st Hreach) as [Hstatus _ _ _ _].
  split; [done|]. split.
  - by destruct (processingState st).
  - intros s. by destruct s.
Qed.

Lemma reachable_status_witness :
  processingState completeState ≠ UPLOADING ∧
  is_Some (statusMap (processingState completeState)) ∧
  (∀ s, statusMap s = None ↔ s = UPLOADING).
Proof.
  apply (reachable_status_is_mapped completeState).
  exact completeState_reachable.
Defined.

(** ** The buttons and the validation of the handlers *)

(** X18: in a reachable state, [handleOcr] refuses exactly when the Page
    Selection is empty, which is when the OCR button is disabled for lack
    of pages; with the button enabled the click moves to [PERFORMING_OCR]
    with the error cleared and calls the client with at least one page. *)
Theorem reachable_ocr_button_matches_validation (st : AppState) :
  Reachable st →
  (size (selectedPageNumbers st) = 0 ↔ snd (handleOcr st) = NoCall) ∧
  (ocrButtonDisabled st = false →
   ∃ pages, pages ≠ [] ∧
     handleOcr st =
     (mkState (file st) (pdfPages st) (selectedPageNumbers st) (ocrText st)
              (selectedAgents st) (results st) PERFORMING_OCR None,
      AwaitOcr pages)).
Proof.
  intros Hreach.
  destruct (reachable_invariant st Hreach) as [_ _ Hsel _ _].
  assert (size (selectedPageNumbers st) = 0 ↔ snd (handleOcr st) = NoCall)
    as Hiff.
  { rewrite handleOcr_pending. cbv zeta. split.
    - intros Hsize. apply size_empty_iff, leibniz_equiv in Hsize.
      by rewrite filter_selected_none.
    - intros Hnone.
      destruct (decide (size (selectedPageNumbers st) = 0)) as [|Hpos]; [done|].
      exfalso. apply size_non_empty_iff in Hpos.
      apply set_choose in Hpos as [p Hp].
      pose proof (Hsel p Hp) as Hpage. unfold pageNumbers in Hpage.
      change map with (@fmap list _) in Hpage.
      apply list_elem_of_fmap in Hpage as (page & -> & Hpage).
      assert (page ∈ filter (λ q, PageData.pageNumber q ∈ selectedPageNumbers st)
                            (pdfPages st)) as Hin.
      { by apply list_elem_of_filter. }
      destruct (filter _ (pdfPages st)); [by apply elem_of_nil in Hin|done]. }
  split; [done|].
  intros Henabled. unfold ocrButtonDisabled in Henabled.
  apply orb_false_iff in Henabled as [_ Hsize].
  apply bool_decide_eq_false in Hsize.
  pose proof (handleOcr_pending st) as Hpending. cbv zeta in Hpending.
  unfold handleOcr in *.
  destruct (filter _ (pdfPages st)) as [|page rest] eqn:Hsent.
  - destruct Hsize. apply Hiff. by rewrite Hpending.
  - by exists (page :: rest).
Qed.

Lemma reachable_ocr_button_witness :
  (size (selectedPageNumbers completeState) = 0 ↔
   snd (handleOcr completeState) = NoCall) ∧
  (ocrButtonDisabled completeState = false →
   ∃ pages, pages ≠ [] ∧
     handleOcr completeState =
     (mkState (file completeState) (pdfPages completeState)
              (selectedPageNumbers completeState) (ocrText completeState)
              (selectedAgents completeState) (results completeState)
              PERFORMING_OCR None,
      AwaitOcr pages)).
Proof.
  apply (reachable_ocr_button_matches_validation completeState).
  exact completeState_reachable.
Defined.

(** X19: when the analysis section is shown and its button is enabled, a
    click is never refused: [handleRunAnalysis] clears the error and the
    Results, moves to [ANALYZING] and launches the selected agents on the
    Extracted Text. *)
Theorem enabled_analysis_button_launches (st : AppState) :
  analysisSectionShown st = true →
  analysisButtonDisabled st = false →
  handleRunAnalysis st =
  (mkState (file st) (pdfPages st) (selectedPageNumbers st) (ocrText st)
           (selectedAgents st) [] ANALYZING None,
   AwaitAgents (selectedAgents st) (ocrText st)).
Proof.
  unfold analysisSectionShown, analysisButtonDisabled, handleRunAnalysis.
  intros Hshown Henabled.
  apply negb_true_iff in Hshown. apply orb_false_iff in Henabled as [_ Hagents].
  by rewrite Hshown, Hagents.
Qed.

Lemma enabled_analysis_button_witness :
  handleRunAnalysis agentsChosenState =
  (mkState (file agentsChosenState) (pdfPages agentsChosenState)
           (selectedPageNumbers agentsChosenState) (ocrText agentsChosenState)
           (selectedAgents agentsChosenState) [] ANALYZING None,
   AwaitAgents (selectedAgents agentsChosenState) (ocrText agentsChosenState)).
Proof.
  apply (enabled_analysis_button_launches agentsChosenState); reflexivity.
Defined.

(** ** A document selected while the agents run *)

(** X20: selecting a PDF after an analysis was launched does not cancel
    it.  When the invocations settle, their results, computed from the
    text of the previous document, are stored and the state becomes
    [COMPLETE], while the new file is recorded, Pages are still empty and
    the Extracted Text is empty. *)
Theorem analysis_settles_into_the_new_document
    (runs : nat → AgentRun) (f : File.t) (st : AppState) :
  ocrText st ≠ EmptyString →
  selectedAgents st ≠ [] →
  File.type f = "application/pdf" →
  let launched := fst (handleRunAnalysis st) in
  let replaced := fst (handleFileChange (Some f) ReadScheduled launched) in
  let settled :=
    handleRunAnalysis_resume
      (analysisPromises (ocrText st) (selectedAgents st) runs) replaced in
  snd (handleRunAnalysis st) = AwaitAgents (selectedAgents st) (ocrText st) ∧
  processingState replaced = RENDERING_PDF ∧
  settled =
    mkState (Some f) [] ∅ EmptyString (selectedAgents st)
      (analysisPromises (ocrText st) (selectedAgents st) runs) COMPLETE None.
Proof.
  intros Htext Hagents Hpdf. cbv zeta.
  rewrite (handleFileChange_accepts f _ Hpdf). cbn [fst].
  unfold handleRunAnalysis. rewrite bool_decide_eq_false_2 by done.
  rewrite bool_decide_eq_false_2 by (by destruct (selectedAgents st)).
  done.
Qed.

Lemma analysis_settles_into_the_new_document_witness :
  let launched := fst (handleRunAnalysis agentsChosenState) in
  let replaced := fst (handleFileChange (Some samplePdf) ReadScheduled launched) in
  let settled :=
    handleRunAnalysis_resume
      (analysisPromises (ocrText agentsChosenState)
         (selectedAgents agentsChosenState) sampleRuns) replaced in
  snd (handleRunAnalysis agentsChosenState) =
    AwaitAgents (selectedAgents agentsChosenState) (ocrText agentsChosenState) ∧
  processingState replaced = RENDERING_PDF ∧
  settled =
    mkState (Some samplePdf) [] ∅ EmptyString (selectedAgents agentsChosenState)
      (analysisPromises (ocrText agentsChosenState)
         (selectedAgents agentsChosenState) sampleRuns) COMPLETE None.
Proof.
  apply (analysis_settles_into_the_new_document sampleRuns samplePdf
           agentsChosenState).
  - by vm_compute.
  - by vm_compute.
  - reflexivity.
Defined.
